(** * The system-call layer of Pintos (userprog/syscall.c)

    A shallow embedding of [src/userprog/syscall.c]: the user-memory
    validators ([check_addr], [get_user], [memread_user], [check_buffer]),
    the handlers ([sys_exit], [sys_exec], [sys_wait], [sys_write]) and the
    dispatcher ([syscall_handler]), followed by the properties the
    specification states about them.

    Addresses and machine words are integers in [0, 2^32) with the
    wrap-around written out; a byte is a [Byte.byte]; the kernel state is
    threaded through a small state-and-stop monad, in which a call that
    does not return ([thread_exit], [shutdown_power_off], a failed
    assertion) stops the rest of the handler. *)

From Stdlib Require Import ZArith Lia Bool String.
From Stdlib Require Import Init.Byte.
From stdpp Require Import base list.

Local Open Scope Z_scope.

(** ** Machine integers *)

(** A pointer or an [unsigned]: 32 bits, arithmetic wraps around. *)
Definition wrap32 (z : Z) : Z := z mod 2 ^ 32.

(** The cast to [int]: the same 32 bits read in two's complement. *)
Definition to_int32 (z : Z) : Z :=
  let u := wrap32 z in if u <? 2 ^ 31 then u else u - 2 ^ 32.

(** The value of a byte, zero-extended (what [movzbl] leaves in [%eax]). *)
Definition byte_val (b : byte) : Z := Z.of_N (Byte.to_N b).

(** The conversion of an [int] to [char], as in a store through a
    [char] pointer: the low 8 bits. *)
Definition byte_of_Z (z : Z) : byte :=
  match Byte.of_N (Z.to_N (Z.land z 255)) with
  | Some b => b
  | None => x00
  end.

(** A little-endian sequence of bytes read as an unsigned number: the
    value of a 4-byte local once its bytes have been filled in one by one. *)
Fixpoint le_combine (bs : list byte) : Z :=
  match bs with
  | [] => 0
  | b :: bs' => byte_val b + 2 ^ 8 * le_combine bs'
  end.

(** The [n] little-endian bytes of a number. *)
Fixpoint le_split (n : nat) (w : Z) : list byte :=
  match n with
  | O => []
  | S n' => byte_of_Z w :: le_split n' (w / 2 ^ 8)
  end.

(** ** Memory *)

(** The address space as the MMU presents it to the running thread: an
    address is mapped to a byte or is not mapped. *)
Definition memory := Z -> option byte.

(** Modelled from the spec: threads/vaddr.h is not among the sources.
    [PHYS_BASE] is the Address-Space Boundary of section 3, user addresses
    below and kernel addresses at or above it; the value is Pintos's
    [LOADER_PHYS_BASE]. No proof below depends on the value except the
    evaluations on concrete inputs. *)
Definition PHYS_BASE : Z := 0xC0000000.

(** The outcome of the one-byte load [movzbl (uaddr), %eax]. *)
Inductive load_result : Type :=
  | Loaded (b : byte)
  | PageFault.

Definition movzbl (m : memory) (uaddr : Z) : load_result :=
  match m uaddr with
  | Some b => Loaded b
  | None => PageFault
  end.

(** Modelled from the spec: the page-fault handler (userprog/exception.c)
    is not among the sources. [get_user] loads the address of the label
    after the load into [%eax] so that the handler can resume there with
    [%eax = -1]; section 4.1 ([probe_byte]) states that a fault during this
    read is turned into an ordinary error return. *)
Definition page_fault_resume : Z := -1.

(** [get_user]: the boundary test, then the guarded one-byte load. *)
Definition get_user (m : memory) (uaddr : Z) : Z :=
  if negb (uaddr <? PHYS_BASE) then -1
  else
    match movzbl m uaddr with
    | Loaded b => byte_val b
    | PageFault => page_fault_resume
    end.

(** [check_addr]: rejects only addresses strictly above [PHYS_BASE]. *)
Definition check_addr (uaddr : Z) : bool :=
  if PHYS_BASE <? uaddr then false else true.

(** The loop of [memread_user]: [n] iterations remain, [i] is the loop
    counter. The result is [false] when the loop returns -1 from inside,
    with the destination as the loop leaves it in both cases. The store
    [*(char * )(dst + i)] is an update of the destination by index; the
    callers pass a destination of [bytes] bytes, and the properties below
    assume as much (past the end the C code overruns the buffer, the list
    update does nothing). *)
Fixpoint memread_user_loop (m : memory) (src : Z) (n i : nat)
    (dst : list byte) : bool * list byte :=
  match n with
  | O => (true, dst)
  | S n' =>
      let value := get_user m (wrap32 (src + Z.of_nat i)) in
      if value <? 0 then (false, dst)
      else memread_user_loop m src n' (S i)
             (<[i := byte_of_Z (Z.land value 255)]> dst)
  end.

(** [memread_user src dst bytes]: the return value and the destination
    afterwards. *)
Definition memread_user (m : memory) (src : Z) (dst : list byte) (bytes : Z)
    : Z * list byte :=
  match memread_user_loop m src (Z.to_nat bytes) 0 dst with
  | (true, dst') => (to_int32 bytes, dst')
  | (false, dst') => (-1, dst')
  end.

(** [check_buffer]: [n] iterations remain. *)
Fixpoint check_buffer_loop (m : memory) (n : nat) (local_buffer : Z) : bool :=
  match n with
  | O => true
  | S n' =>
      if negb (check_addr local_buffer) || (get_user m local_buffer <? 0)
      then false
      else check_buffer_loop m n' (wrap32 (local_buffer + 1))
  end.

Definition check_buffer (m : memory) (buffer : Z) (size : Z) : bool :=
  check_buffer_loop m (Z.to_nat size) buffer.

(** An unguarded read of [n] bytes at [a], as kernel code does when it
    dereferences a pointer: [None] is a page fault in kernel context. *)
Fixpoint load_bytes (m : memory) (a : Z) (n : nat) : option (list byte) :=
  match n with
  | O => Some []
  | S n' =>
      match m a, load_bytes m (wrap32 (a + 1)) n' with
      | Some b, Some bs => Some (b :: bs)
      | _, _ => None
      end
  end.

(** Memory with the bytes [bs] placed at [a] and the following addresses;
    used to build concrete address spaces. *)
Fixpoint store_bytes (a : Z) (bs : list byte) (m : memory) : memory :=
  match bs with
  | [] => m
  | b :: bs' => fun x => if x =? a then Some b else store_bytes (a + 1) bs' m x
  end.

Definition empty_memory : memory := fun _ => None.

(** ** The kernel state seen by the system-call layer *)

(** Modelled from the spec: userprog/process.h is not among the sources.
    The Process Control Block of section 3, with the fields syscall.c uses:
    [exited], [exitcode] and the semaphore [sema_wait], of which the count
    is kept ([sema_up] increments it and releases a waiter). *)
Record process_control_block : Type := mk_pcb {
  pid : Z;
  exited : bool;
  exitcode : Z;
  sema_wait : nat
}.

(** The fields of [struct thread] that syscall.c reads; [pcb] is a pointer
    and may be [NULL]. *)
Record thread : Type := mk_thread {
  name : string;
  pcb : option process_control_block
}.

(** The fields of [struct intr_frame] that syscall.c reads and writes. *)
Record intr_frame : Type := mk_frame {
  esp : Z;
  eax : Z
}.

Definition set_eax (f : intr_frame) (v : Z) : intr_frame :=
  mk_frame (esp f) v.

Inductive printf_arg : Type :=
  | ArgStr (s : string)
  | ArgInt (z : Z).

(** What the handler does to the world outside, in the order it does it.
    A [Printf] keeps the format string as the C source spells it and the
    arguments; a [Putbuf] keeps the bytes handed to the console. *)
Inductive event : Type :=
  | Printf (fmt : string) (args : list printf_arg)
  | Putbuf (bs : list byte)
  | PcbSetExited (b : bool)
  | PcbSetExitcode (status : Z)
  | SemaUp
  | ThreadExit
  | PowerOff.

Record kernel : Type := mk_kernel {
  user_memory : memory;
  current : thread;
  trace : list event
}.

(** Why a handler did not return. *)
Inductive stop : Type :=
  | ThreadExited
  | PoweredOff
  | KernelPanic.

Inductive result (A : Type) : Type :=
  | Normal (a : A)
  | Stop (why : stop).
Arguments Normal {A} a.
Arguments Stop {A} why.

(** A kernel computation: it returns a value or stops, and leaves a state. *)
Definition M (A : Type) : Type := kernel -> result A * kernel.

#[global] Instance M_ret : MRet M := fun A a k => (Normal a, k).

#[global] Instance M_bind : MBind M := fun A B g c k =>
  match c k with
  | (Normal a, k') => g a k'
  | (Stop why, k') => (Stop why, k')
  end.

Definition emit (e : event) : M unit := fun k =>
  (Normal tt, mk_kernel (user_memory k) (current k) (trace k ++ [e])).

Definition halt_with {A : Type} (why : stop) : M A := fun k => (Stop why, k).

Definition when {A : Type} (b : bool) (c : M A) : M unit :=
  if b then c ;; mret tt else mret tt.

Definition thread_current : M thread := fun k => (Normal (current k), k).

(** A write through the [pcb] pointer of the current thread. *)
Definition pcb_update (g : process_control_block -> process_control_block)
    : M unit := fun k =>
  (Normal tt,
   mk_kernel (user_memory k)
     (mk_thread (name (current k)) (g <$> pcb (current k)))
     (trace k)).

Definition printf (fmt : string) (args : list printf_arg) : M unit :=
  emit (Printf fmt args).

(** [ASSERT] and [NOT_REACHED] panic the kernel. *)
Definition ASSERT (b : bool) : M unit :=
  if b then mret tt else halt_with KernelPanic.

Definition NOT_REACHED {A : Type} : M A := halt_with KernelPanic.

(** Modelled from the spec: threads/thread.c is not among the sources.
    [terminate_current_process] of section 6: the thread ends here, and
    nothing in it writes the exit code or raises the signal, which section
    4.4 gives to the exiting process's own [exit]. *)
Definition thread_exit {A : Type} : M A :=
  emit ThreadExit ;; halt_with ThreadExited.

(** Modelled from the spec: devices/shutdown.c is not among the sources.
    [power_off] of section 6: does not return. *)
Definition shutdown_power_off {A : Type} : M A :=
  emit PowerOff ;; halt_with PoweredOff.

(** Modelled from the spec: lib/kernel/console.c is not among the sources.
    [console_write] of section 6: always succeeds. It reads the [size]
    bytes at [buffer] without a guard; a byte that is not mapped is a page
    fault in kernel context. *)
Definition putbuf (buffer size : Z) : M unit := fun k =>
  match load_bytes (user_memory k) buffer (Z.to_nat size) with
  | Some bs => emit (Putbuf bs) k
  | None => (Stop KernelPanic, k)
  end.

Definition sema_up : M unit :=
  pcb_update (fun p => mk_pcb (pid p) (exited p) (exitcode p) (S (sema_wait p))) ;;
  emit SemaUp.

(** The validators, reading the memory of the state. *)
Definition get_user_k (uaddr : Z) : M Z := fun k =>
  (Normal (get_user (user_memory k) uaddr), k).

Definition memread_user_k (src : Z) (dst : list byte) (bytes : Z)
    : M (Z * list byte) := fun k =>
  (Normal (memread_user (user_memory k) src dst bytes), k).

Definition check_buffer_k (buffer size : Z) : M bool := fun k =>
  (Normal (check_buffer (user_memory k) buffer size), k).

(** The unguarded [*(int * )(p)]. *)
Definition deref_int (p : Z) : M Z := fun k =>
  match load_bytes (user_memory k) p 4 with
  | Some bs => (Normal (to_int32 (le_combine bs)), k)
  | None => (Stop KernelPanic, k)
  end.

(** A 4-byte local before it is assigned; each of its bytes is written by
    [memread_user] before the handler reads it. *)
Definition local4 : list byte := [x00; x00; x00; x00].

(** Modelled from the spec: lib/syscall-nr.h is not among the sources; the
    opcode enumeration of section 6. *)
Definition SYS_HALT : Z := 0.
Definition SYS_EXIT : Z := 1.
Definition SYS_EXEC : Z := 2.
Definition SYS_WAIT : Z := 3.
Definition SYS_CREATE : Z := 4.
Definition SYS_REMOVE : Z := 5.
Definition SYS_OPEN : Z := 6.
Definition SYS_FILESIZE : Z := 7.
Definition SYS_READ : Z := 8.
Definition SYS_WRITE : Z := 9.
Definition SYS_SEEK : Z := 10.
Definition SYS_TELL : Z := 11.
Definition SYS_CLOSE : Z := 12.

(** ** The handlers *)

Definition sys_exit (status : Z) : M unit :=
  t ← thread_current;
  printf "%s: exit(%d)\n" [ArgStr (name t); ArgInt status] ;;
  ASSERT (bool_decide (is_Some (pcb t))) ;;
  pcb_update (fun p => mk_pcb (pid p) true (exitcode p) (sema_wait p)) ;;
  emit (PcbSetExited true) ;;
  pcb_update (fun p => mk_pcb (pid p) (exited p) status (sema_wait p)) ;;
  emit (PcbSetExitcode status) ;;
  sema_up ;;
  thread_exit.

Definition fail_invalid_access : M Z :=
  sys_exit (-1) ;; NOT_REACHED.

Definition sys_badmemory_access : M Z :=
  sys_exit (-1) ;; NOT_REACHED.

(** [sys_write]: the returned pair is the [bool] result and the value of
    [*ret] afterwards. *)
Definition sys_write (fd buffer size ret : Z) : M (bool * Z) :=
  v ← get_user_k buffer;
  if v =? -1 then
    (thread_exit (A := unit) ;; mret (false, ret))
  else if fd =? 1 then
    (putbuf buffer size ;; mret (true, to_int32 size))
  else
    (printf "[ERROR] sys_write unimplemented\n" [] ;; mret (false, ret)).

(** The process manager, which syscall.c calls and does not define.
    The command line is passed as the pointer it is. *)
Class Collaborators : Type := {
  process_execute : Z -> M Z;
  process_wait : Z -> M Z
}.

Section Dispatch.
Context `{Collaborators}.

(** [_DEBUG_PRINTF] expands to nothing unless [DEBUG] is defined. *)
Definition sys_exec (cmdline : Z) : M Z :=
  v ← get_user_k cmdline;
  when (v =? -1) fail_invalid_access ;;
  child_tid ← process_execute cmdline;
  mret child_tid.

Definition sys_wait (p : Z) : M Z := process_wait p.

Definition case_SYS_EXIT (f : intr_frame) : M intr_frame :=
  '(r, exitcode) ← memread_user_k (wrap32 (esp f + 4)) local4 4;
  when (r =? -1) fail_invalid_access ;;
  sys_exit (to_int32 (le_combine exitcode)) ;;
  NOT_REACHED (A := unit) ;;
  mret f.

Definition case_SYS_EXEC (f : intr_frame) : M intr_frame :=
  '(r, cmdline) ← memread_user_k (wrap32 (esp f + 4)) local4 4;
  when (r =? -1) fail_invalid_access ;;
  return_code ← sys_exec (le_combine cmdline);
  mret (set_eax f (wrap32 return_code)).

Definition case_SYS_WAIT (f : intr_frame) : M intr_frame :=
  '(r, p) ← memread_user_k (wrap32 (esp f + 4)) local4 4;
  when (r =? -1) fail_invalid_access ;;
  ret ← sys_wait (to_int32 (le_combine p));
  mret (set_eax f (wrap32 ret)).

Definition case_SYS_WRITE (f : intr_frame) : M intr_frame :=
  '(r1, fd) ← memread_user_k (wrap32 (esp f + 4)) local4 4;
  when (-1 =? r1) fail_invalid_access ;;
  '(r2, buffer) ← memread_user_k (wrap32 (esp f + 8)) local4 4;
  when (-1 =? r2) fail_invalid_access ;;
  '(r3, size) ← memread_user_k (wrap32 (esp f + 12)) local4 4;
  when (-1 =? r3) fail_invalid_access ;;
  '(ok, return_code) ←
    sys_write (to_int32 (le_combine fd)) (le_combine buffer)
              (le_combine size) 0;
  when (negb ok) (thread_exit (A := unit)) ;;
  mret (set_eax f (wrap32 return_code)).

(** The label [unhandled], which is also the [default] of the switch. *)
Definition unhandled (f : intr_frame) (syscall_number : Z) : M intr_frame :=
  printf "[ERROR] system call %d is unimplemented!\n" [ArgInt syscall_number] ;;
  sys_exit (-1) ;;
  mret f.

(** The [switch] of [syscall_handler]: the chain of tests on the opcode,
    in the order of the case labels. The [SYS_HALT] case has no [break]
    and is followed by the text of the [SYS_EXIT] case. *)
Definition switch_syscall (f : intr_frame) (syscall_number : Z)
    : M intr_frame :=
  if syscall_number =? SYS_HALT then
    (shutdown_power_off (A := unit) ;; case_SYS_EXIT f)
  else if syscall_number =? SYS_EXIT then case_SYS_EXIT f
  else if syscall_number =? SYS_EXEC then case_SYS_EXEC f
  else if syscall_number =? SYS_WAIT then case_SYS_WAIT f
  else if (syscall_number =? SYS_CREATE) || (syscall_number =? SYS_REMOVE)
          || (syscall_number =? SYS_OPEN) || (syscall_number =? SYS_FILESIZE)
          || (syscall_number =? SYS_READ)
  then unhandled f syscall_number
  else if syscall_number =? SYS_WRITE then case_SYS_WRITE f
  else if (syscall_number =? SYS_SEEK) || (syscall_number =? SYS_TELL)
          || (syscall_number =? SYS_CLOSE)
  then unhandled f syscall_number
  else unhandled f syscall_number.

Definition syscall_handler (f : intr_frame) : M intr_frame :=
  when (negb (check_addr (esp f))) (thread_exit (A := unit)) ;;
  ok ← check_buffer_k (esp f) 4;
  when (negb ok) sys_badmemory_access ;;
  syscall_number ← deref_int (esp f);
  switch_syscall f syscall_number.
End Dispatch.

(** ** Vocabulary of the properties *)

(** The bytes [bs] lie in user memory at [a]: every address of the range
    is below [PHYS_BASE] and mapped to the corresponding byte. *)
Definition user_bytes_at (m : memory) (a : Z) (bs : list byte) : Prop :=
  forall (j : nat) (b : byte),
    bs !! j = Some b ->
    wrap32 (a + Z.of_nat j) < PHYS_BASE /\ m (wrap32 (a + Z.of_nat j)) = Some b.

(** The 4-byte word at [a] lies in user memory and holds the unsigned
    value [w] (a pointer, an [unsigned]). *)
Definition user_word_at (m : memory) (a : Z) (w : Z) : Prop :=
  exists bs : list byte,
    length bs = 4%nat /\ user_bytes_at m a bs /\ le_combine bs = w.

(** The same word read as an [int]. *)
Definition user_int_at (m : memory) (a : Z) (n : Z) : Prop :=
  exists bs : list byte,
    length bs = 4%nat /\ user_bytes_at m a bs /\ to_int32 (le_combine bs) = n.

(** The state [sys_exit status] leaves behind when the current thread has
    the PCB [p]: the two fields and the semaphore of the PCB, and the five
    events appended to the trace. *)
Definition exited_kernel (status : Z) (p : process_control_block)
    (k : kernel) : kernel :=
  mk_kernel (user_memory k)
    (mk_thread (name (current k))
       (Some (mk_pcb (pid p) true status (S (sema_wait p)))))
    (trace k ++
       [Printf "%s: exit(%d)\n" [ArgStr (name (current k)); ArgInt status];
        PcbSetExited true; PcbSetExitcode status; SemaUp; ThreadExit]).

(** The state with the events [es] appended and nothing else changed. *)
Definition logged (es : list event) (k : kernel) : kernel :=
  mk_kernel (user_memory k) (current k) (trace k ++ es).

(** The writes to the PCB and the raising of its signal, among the events. *)
Definition is_pcb_action (e : event) : bool :=
  match e with
  | PcbSetExited _ | PcbSetExitcode _ | SemaUp => true
  | _ => false
  end.

Definition pcb_actions (es : list event) : list event :=
  List.filter is_pcb_action es.

Definition is_putbuf (e : event) : bool :=
  match e with
  | Putbuf _ => true
  | _ => false
  end.

(** ** Concrete inputs *)

(** A process manager that starts nothing and waits for nothing. *)
Definition idle : Collaborators :=
  {| process_execute := fun _ => mret 7; process_wait := fun _ => mret 0 |}.

(** The words of a user stack, four little-endian bytes each. *)
Definition words (ws : list Z) : list byte := concat (map (le_split 4) ws).

(** A running process [main] with a fresh PCB, on the address space [m]. *)
Definition fresh_pcb : process_control_block := mk_pcb 3 false 0 0.

Definition proc (m : memory) : kernel :=
  mk_kernel m (mk_thread "main" (Some fresh_pcb)) [].

(** A trap with the stack pointer [sp]. *)
Definition trap (m : memory) (sp : Z) : result intr_frame * kernel :=
  @syscall_handler idle (mk_frame sp 0) (proc m).

(** [write (1, 0xBFFFF100, 2)] with the two bytes of ["hi"] at the buffer. *)
Definition mem_write_hi : memory :=
  store_bytes 0xBFFFF000 (words [SYS_WRITE; 1; 0xBFFFF100; 2])
    (store_bytes 0xBFFFF100 ["h"; "i"]%byte empty_memory).

(** [write (1, PHYS_BASE - 1, 2)]: the first byte of the buffer is the
    last byte of user memory, the second the first byte of kernel memory. *)
Definition mem_write_straddle : memory :=
  store_bytes 0xBFFFF000 (words [SYS_WRITE; 1; 0xBFFFFFFF; 2])
    (store_bytes 0xBFFFFFFF ["h"; "K"]%byte empty_memory).

(** [write (1, PHYS_BASE, 2)]: the buffer is in kernel memory. *)
Definition mem_write_kernel : memory :=
  store_bytes 0xBFFFF000 (words [SYS_WRITE; 1; 0xC0000000; 2])
    (store_bytes 0xC0000000 ["h"; "i"]%byte empty_memory).

(** [write (99, 0xBFFFF100, 2)] with a readable buffer. *)
Definition mem_write_99 : memory :=
  store_bytes 0xBFFFF000 (words [SYS_WRITE; 99; 0xBFFFF100; 2])
    (store_bytes 0xBFFFF100 ["h"; "i"]%byte empty_memory).

(** [halt ()], with a word above the opcode that [exit] would read. *)
Definition mem_halt : memory :=
  store_bytes 0xBFFFF000 (words [SYS_HALT; 5]) empty_memory.

(** [exit (7)]. *)
Definition mem_exit : memory :=
  store_bytes 0xBFFFF000 (words [SYS_EXIT; 7]) empty_memory.

(** [read (...)], an opcode of the enumeration without a handler. *)
Definition mem_read : memory :=
  store_bytes 0xBFFFF000 (words [SYS_READ; 0; 0; 0]) empty_memory.

(** ** Vocabulary of the invariants *)

(** [k'] comes after [k] without rewriting anything: the user memory and
    the name of the thread are the same, and the trace of [k'] is the trace
    of [k] with events appended. *)
Definition extends (k k' : kernel) : Prop :=
  user_memory k' = user_memory k /\
  name (current k') = name (current k) /\
  exists es : list event, trace k' = trace k ++ es.

(** A computation that leaves every state extended. *)
Definition framed {A : Type} (c : M A) : Prop :=
  forall k : kernel, extends k (snd (c k)).

(** The record of a thread before and after its exit: the PCB [p] it had,
    with the flag set, some status written and the semaphore raised once. *)
Definition exit_of (t t' : thread) : Prop :=
  exists (p : process_control_block) (status : Z),
    pcb t = Some p /\
    t' = mk_thread (name t) (Some (mk_pcb (pid p) true status (S (sema_wait p)))).

(** A computation that leaves the record of the current thread alone,
    unless it ends the thread after an exit. *)
Definition quiet_or_exits {A : Type} (c : M A) : Prop :=
  forall k : kernel,
    current (snd (c k)) = current k \/
    (fst (c k) = Stop ThreadExited /\ exit_of (current k) (current (snd (c k)))).

(** A computation that does not return to its caller. *)
Definition never_returns {A : Type} (c : M A) : Prop :=
  forall (k : kernel) (a : A) (k' : kernel), c k <> (Normal a, k').

(** A computation of which every returned value satisfies [P]. *)
Definition returns_only {A : Type} (P : A -> Prop) (c : M A) : Prop :=
  forall (k : kernel) (a : A) (k' : kernel), c k = (Normal a, k') -> P a.

(** ** More concrete inputs *)

(** [exec (0xBFFFF100)] with a readable command line. *)
Definition mem_exec : memory :=
  store_bytes 0xBFFFF000 (words [SYS_EXEC; 0xBFFFF100])
    (store_bytes 0xBFFFF100 ["l"; "s"; x00]%byte empty_memory).

(** [exec (NULL)]: nothing is mapped at address 0. *)
Definition mem_exec_null : memory :=
  store_bytes 0xBFFFF000 (words [SYS_EXEC; 0]) empty_memory.

(** [wait (-1)]. *)
Definition mem_wait : memory :=
  store_bytes 0xBFFFF000 (words [SYS_WAIT; -1]) empty_memory.

(** [exit] with the opcode in the last word of user memory: the argument
    word would start at [PHYS_BASE]. *)
Definition mem_exit_top : memory :=
  store_bytes 0xBFFFFFFC (words [SYS_EXIT]) empty_memory.

(** [write] with the opcode and two arguments in the last three words of
    user memory: the third argument would start at [PHYS_BASE]. *)
Definition mem_write_top : memory :=
  store_bytes 0xBFFFFFF4 (words [SYS_WRITE; 1; 0xBFFFF100])
    (store_bytes 0xBFFFF100 ["h"; "i"]%byte empty_memory).

(** [write (1, 0, 0)]: no byte is asked for, and the buffer is [NULL]. *)
Definition mem_write_null : memory :=
  store_bytes 0xBFFFF000 (words [SYS_WRITE; 1; 0; 0]) empty_memory.

(** ** The validators *)

Lemma byte_of_Z_val (b : byte) : byte_of_Z (Z.land (byte_val b) 255) = b.
Proof. destruct b; reflexivity. Qed.

Lemma byte_val_range (b : byte) : 0 <= byte_val b <= 255.
Proof. destruct b; vm_compute; split; discriminate. Qed.

Lemma check_addr_true (a : Z) : check_addr a = true <-> a <= PHYS_BASE.
Proof.
  unfold check_addr. destruct (Z.ltb_spec PHYS_BASE a); split; intros; try lia; easy.
Qed.

Lemma get_user_nonneg (m : memory) (a : Z) :
  0 <= get_user m a <-> a < PHYS_BASE /\ exists b, m a = Some b /\ get_user m a = byte_val b.
Proof.
  unfold get_user, movzbl, page_fault_resume.
  destruct (Z.ltb_spec a PHYS_BASE); simpl.
  - destruct (m a) as [b|].
    + pose proof (byte_val_range b). split; [eauto|lia].
    + split; [lia|]. intros [_ (b & Hb & _)]. discriminate.
  - split; [lia|]. intros [? _]. lia.
Qed.

Lemma get_user_range (m : memory) (a : Z) : -1 <= get_user m a <= 255.
Proof.
  unfold get_user, movzbl, page_fault_resume.
  destruct (negb (a <? PHYS_BASE)); [lia|].
  destruct (m a) as [b|]; [pose proof (byte_val_range b)|]; lia.
Qed.

(** The loop of [memread_user] after [c] good bytes followed by a bad one,
    or by the end of the range: the invariant is carried from offset [i]. *)
Lemma memread_user_loop_spec (m : memory) (src : Z) :
  forall (n i : nat) (dst : list byte) (c : nat),
    (c <= n)%nat ->
    (i + c <= length dst)%nat ->
    (forall j : nat, (i <= j < i + c)%nat ->
       0 <= get_user m (wrap32 (src + Z.of_nat j))) ->
    (c = n \/ get_user m (wrap32 (src + Z.of_nat (i + c))) < 0) ->
    exists dst',
      memread_user_loop m src n i dst = (Nat.eqb c n, dst') /\
      length dst' = length dst /\
      (forall j : nat, (i <= j < i + c)%nat ->
         dst' !! j = m (wrap32 (src + Z.of_nat j))) /\
      (forall j : nat, (j < i \/ i + c <= j)%nat -> dst' !! j = dst !! j).
Proof.
  induction n as [|n IH]; intros i dst c Hc Hlen Hgood Hend.
  - assert (c = 0)%nat as -> by lia. exists dst. simpl.
    repeat split; auto. intros j Hj. lia.
  - destruct c as [|c]; simpl.
    + destruct Hend as [Hend|Hend]; [discriminate|].
      rewrite Nat.add_0_r in Hend.
      destruct (Z.ltb_spec (get_user m (wrap32 (src + Z.of_nat i))) 0); [|lia].
      exists dst. repeat split; auto. intros j Hj. lia.
    + assert (0 <= get_user m (wrap32 (src + Z.of_nat i))) as Hi
        by (apply Hgood; lia).
      destruct (Z.ltb_spec (get_user m (wrap32 (src + Z.of_nat i))) 0); [lia|].
      apply get_user_nonneg in Hi as (_ & b & Hb & Hv).
      rewrite Hv, byte_of_Z_val.
      destruct (IH (S i) (<[i := b]> dst) c) as (dst' & Hrun & Hl & Hin & Hout).
      * lia.
      * rewrite length_insert. lia.
      * intros j Hj. apply Hgood. lia.
      * destruct Hend as [Hend|Hend]; [left; lia|right].
        replace (S i + c)%nat with (i + S c)%nat by lia. exact Hend.
      * exists dst'. rewrite length_insert in Hl.
        split; [exact Hrun|]. split; [exact Hl|]. split.
        -- intros j Hj. destruct (decide (j = i)) as [->|Hne].
           ++ rewrite Hout by lia.
              rewrite list_lookup_insert_eq by lia. now rewrite Hb.
           ++ apply Hin. lia.
        -- intros j Hj. rewrite Hout by lia.
           apply list_lookup_insert_ne. lia.
Qed.

Lemma to_int32_small (z : Z) : 0 <= z < 2 ^ 31 -> to_int32 z = z.
Proof.
  intros Hz. unfold to_int32, wrap32.
  rewrite Z.mod_small by lia.
  destruct (Z.ltb_spec z (2 ^ 31)); lia.
Qed.

(** C3, at the boundary: [check_addr] accepts the address [PHYS_BASE]
    itself, which is not strictly below the boundary (and which [get_user]
    rejects); it accepts exactly the addresses up to and including
    [PHYS_BASE]. *)
Theorem check_addr_accepts_boundary :
  check_addr PHYS_BASE = true /\
  ~ PHYS_BASE < PHYS_BASE /\
  (forall m : memory, get_user m PHYS_BASE = -1) /\
  (forall a : Z, check_addr a = true <-> a < PHYS_BASE + 1).
Proof.
  split; [reflexivity|]. split; [lia|]. split.
  - intros m. reflexivity.
  - intros a. rewrite check_addr_true. lia.
Qed.

(** C7: the one-byte probe [get_user]. At or above [PHYS_BASE] it returns
    -1 whatever the memory holds, so without reading it; on a user address
    that is not mapped the guarded load faults and the probe returns -1; on
    a mapped user address it returns the byte there, zero-extended, which
    lies in [0, 255] and so differs from -1. In every case the probe
    returns to its caller, with the state as it was. *)
Theorem get_user_probe (m : memory) (a : Z) :
  (PHYS_BASE <= a -> forall m' : memory, get_user m' a = -1) /\
  (a < PHYS_BASE -> m a = None -> get_user m a = -1) /\
  (forall b : byte, a < PHYS_BASE -> m a = Some b ->
     get_user m a = byte_val b /\ 0 <= get_user m a <= 255 /\ get_user m a <> -1) /\
  (forall k : kernel, exists v : Z, get_user_k a k = (Normal v, k)).
Proof.
  unfold get_user, movzbl, page_fault_resume.
  destruct (Z.ltb_spec a PHYS_BASE) as [Hlt|Hge]; simpl.
  - split; [lia|]. split; [|split].
    + intros _ Hm. now rewrite Hm.
    + intros b _ Hm. rewrite Hm. pose proof (byte_val_range b). lia.
    + intros k. eexists. reflexivity.
  - split; [|split; [|split]]; try (intros; lia).
    intros k. eexists. reflexivity.
Qed.

(** A probe on a mapped byte below the boundary, a probe on a hole below
    the boundary, and a probe on a mapped byte of kernel memory. *)
Lemma get_user_probe_witness :
  get_user mem_write_straddle 0xBFFFFFFF = 104 /\
  get_user mem_write_straddle 0xBFFFFFFE = -1 /\
  get_user mem_write_straddle 0xC0000000 = -1.
Proof.
  split; [|split].
  - destruct (get_user_probe mem_write_straddle 0xBFFFFFFF) as (_ & _ & Hmapped & _).
    apply (Hmapped "h"%byte); reflexivity.
  - destruct (get_user_probe mem_write_straddle 0xBFFFFFFE) as (_ & Hhole & _).
    apply Hhole; reflexivity.
  - destruct (get_user_probe mem_write_straddle 0xC0000000) as (Hkernel & _).
    apply Hkernel. unfold PHYS_BASE. lia.
Defined.

(** C10: [memread_user src dst bytes] is not atomic. When the probe of the
    byte at offset [i] is the first to fail, the call returns -1 and leaves
    in [dst] the user bytes of the offsets below [i], the rest of [dst]
    being as it was; when no probe fails it returns [bytes] and [dst] holds
    the [bytes] user bytes. [dst] has room for [bytes] bytes and [bytes]
    fits an [int]. *)
Theorem memread_user_partial (m : memory) (src : Z) (dst : list byte)
    (bytes : Z)
    (Hbytes : 0 <= bytes < 2 ^ 31)
    (Hroom : (Z.to_nat bytes <= length dst)%nat) :
  (forall i : nat,
     (i < Z.to_nat bytes)%nat ->
     (forall j : nat, (j < i)%nat -> 0 <= get_user m (wrap32 (src + Z.of_nat j))) ->
     get_user m (wrap32 (src + Z.of_nat i)) < 0 ->
     exists dst',
       memread_user m src dst bytes = (-1, dst') /\
       length dst' = length dst /\
       (forall j : nat, (j < i)%nat -> dst' !! j = m (wrap32 (src + Z.of_nat j))) /\
       (forall j : nat, (i <= j)%nat -> dst' !! j = dst !! j)) /\
  ((forall j : nat, (j < Z.to_nat bytes)%nat ->
      0 <= get_user m (wrap32 (src + Z.of_nat j))) ->
   exists dst',
     memread_user m src dst bytes = (bytes, dst') /\
     length dst' = length dst /\
     (forall j : nat, (j < Z.to_nat bytes)%nat ->
        dst' !! j = m (wrap32 (src + Z.of_nat j))) /\
     (forall j : nat, (Z.to_nat bytes <= j)%nat -> dst' !! j = dst !! j)).
Proof.
  split.
  - intros i Hi Hgood Hbad.
    destruct (memread_user_loop_spec m src (Z.to_nat bytes) 0 dst i)
      as (dst' & Hrun & Hl & Hin & Hout); simpl; try lia; auto.
    { intros j Hj. apply Hgood. lia. }
    exists dst'. unfold memread_user. rewrite Hrun.
    replace (Nat.eqb i (Z.to_nat bytes)) with false
      by (symmetry; apply Nat.eqb_neq; lia).
    split; [reflexivity|]. split; [exact Hl|]. split.
    + intros j Hj. apply Hin. lia.
    + intros j Hj. apply Hout. lia.
  - intros Hgood.
    destruct (memread_user_loop_spec m src (Z.to_nat bytes) 0 dst (Z.to_nat bytes))
      as (dst' & Hrun & Hl & Hin & Hout); simpl; try lia; auto.
    { intros j Hj. apply Hgood. lia. }
    exists dst'. unfold memread_user. rewrite Hrun, Nat.eqb_refl.
    rewrite to_int32_small by lia.
    split; [reflexivity|]. split; [exact Hl|]. split.
    + intros j Hj. apply Hin. lia.
    + intros j Hj. apply Hout. lia.
Qed.

(** Four bytes asked for at the last byte of user memory: the first is
    copied, the probe of the second fails, and the destination keeps the
    copied byte in front of its old contents. *)
Lemma memread_user_partial_witness :
  0 <= 4 < 2 ^ 31 /\
  (Z.to_nat 4 <= length [x01; x02; x03; x04])%nat /\
  exists dst' : list byte,
    memread_user mem_write_straddle 0xBFFFFFFF [x01; x02; x03; x04] 4 = (-1, dst') /\
    length dst' = 4%nat /\
    dst' !! 0%nat = Some "h"%byte /\
    dst' !! 1%nat = Some x02 /\
    dst' !! 3%nat = Some x04.
Proof.
  split; [lia|]. split; [simpl; lia|].
  destruct (memread_user_partial mem_write_straddle 0xBFFFFFFF
              [x01; x02; x03; x04] 4) as [Hfail _]; [lia|simpl; lia|].
  destruct (Hfail 1%nat) as (dst' & Hrun & Hl & Hin & Hout).
  - simpl; lia.
  - intros j Hj. assert (j = 0)%nat as -> by lia. vm_compute. discriminate.
  - reflexivity.
  - exists dst'. split; [exact Hrun|]. split; [exact Hl|].
    rewrite (Hin 0%nat) by lia. rewrite (Hout 1%nat), (Hout 3%nat) by lia.
    repeat split.
Defined.

(** ** The coordinator: [sys_exit] *)

Lemma sys_exit_run (status : Z) (k : kernel) (p : process_control_block) :
  pcb (current k) = Some p ->
  sys_exit status k = (Stop ThreadExited, exited_kernel status p k).
Proof.
  destruct k as [m [nm pc] tr]. simpl. intros ->.
  unfold sys_exit, exited_kernel, thread_exit, sema_up, thread_current,
    printf, emit, ASSERT, pcb_update, halt_with, mbind, M_bind, mret, M_ret.
  simpl. repeat rewrite <- app_assoc. reflexivity.
Qed.

Lemma sys_exit_no_pcb (status : Z) (k : kernel) :
  pcb (current k) = None ->
  sys_exit status k =
  (Stop KernelPanic,
   logged [Printf "%s: exit(%d)\n" [ArgStr (name (current k)); ArgInt status]] k).
Proof.
  destruct k as [m [nm pc] tr]. simpl. intros ->. reflexivity.
Qed.

(** C6, as the code orders it: run by the exiting thread on its own PCB
    [p], [sys_exit status] sets [exited], then writes [exitcode], then
    raises the signal, each once and in that order, and then ends the
    thread; the PCB is left with [exited = true] and [exitcode = status],
    and both writes are in the trace before [SemaUp]. *)
Theorem sys_exit_transition (status : Z) (k : kernel)
    (p : process_control_block)
    (Hpcb : pcb (current k) = Some p) :
  exists k' : kernel,
    sys_exit status k = (Stop ThreadExited, k') /\
    pcb (current k') = Some (mk_pcb (pid p) true status (S (sema_wait p))) /\
    trace k' =
      trace k ++
        [Printf "%s: exit(%d)\n" [ArgStr (name (current k)); ArgInt status];
         PcbSetExited true; PcbSetExitcode status; SemaUp; ThreadExit] /\
    pcb_actions (drop (length (trace k)) (trace k')) =
      [PcbSetExited true; PcbSetExitcode status; SemaUp].
Proof.
  exists (exited_kernel status p k).
  split; [now apply sys_exit_run|]. split; [reflexivity|]. split; [reflexivity|].
  unfold exited_kernel. simpl. rewrite drop_app_length. reflexivity.
Qed.

Lemma sys_exit_transition_witness :
  pcb (current (proc empty_memory)) = Some fresh_pcb /\
  exists k' : kernel,
    sys_exit 7 (proc empty_memory) = (Stop ThreadExited, k') /\
    pcb (current k') = Some (mk_pcb 3 true 7 1) /\
    pcb_actions (trace k') = [PcbSetExited true; PcbSetExitcode 7; SemaUp].
Proof.
  split; [reflexivity|].
  destruct (sys_exit_transition 7 (proc empty_memory) fresh_pcb eq_refl)
    as (k' & Hrun & Hp & Htr & Hact).
  exists k'. split; [exact Hrun|]. split; [exact Hp|].
  rewrite Htr. reflexivity.
Defined.

(** C6, as the claim orders it: [exit (7)] does not write the exit code
    before the flag. *)
Lemma sys_exit_order_counterexample :
  pcb_actions (trace (snd (sys_exit 7 (proc empty_memory))))
    <> [PcbSetExitcode 7; PcbSetExited true; SemaUp].
Proof. vm_compute. discriminate. Qed.

(** ** Words in user memory *)

Ltac run_monad :=
  unfold thread_exit, shutdown_power_off, sema_up, thread_current, printf,
    emit, ASSERT, NOT_REACHED, pcb_update, halt_with, get_user_k,
    memread_user_k, check_buffer_k, when, mbind, M_bind, mret, M_ret.

Lemma wrap32_small (a : Z) : 0 <= a < 2 ^ 32 -> wrap32 a = a.
Proof. intros Ha. unfold wrap32. now apply Z.mod_small. Qed.

Lemma wrap32_succ (a : Z) (j : nat) :
  wrap32 (wrap32 (a + 1) + Z.of_nat j) = wrap32 (a + Z.of_nat (S j)).
Proof.
  unfold wrap32. rewrite Zplus_mod_idemp_l. f_equal. lia.
Qed.

Lemma wrap32_range (a : Z) : 0 <= wrap32 a < 2 ^ 32.
Proof. unfold wrap32. apply Z.mod_pos_bound. lia. Qed.

Lemma wrap32_to_int32 (z : Z) : 0 <= z < 2 ^ 32 -> wrap32 (to_int32 z) = z.
Proof.
  intros Hz. unfold to_int32. rewrite (wrap32_small z Hz).
  destruct (Z.ltb_spec z (2 ^ 31)).
  - now apply wrap32_small.
  - unfold wrap32. replace (z - 2 ^ 32) with (z + (-1) * 2 ^ 32) by lia.
    rewrite Z_mod_plus_full. now apply Z.mod_small.
Qed.

Lemma le_combine_bound (bs : list byte) :
  0 <= le_combine bs < 2 ^ (8 * Z.of_nat (length bs)).
Proof.
  induction bs as [|b bs IH].
  - simpl. lia.
  - cbn [le_combine length]. pose proof (byte_val_range b).
    replace (8 * Z.of_nat (S (length bs))) with (8 + 8 * Z.of_nat (length bs)) by lia.
    rewrite Z.pow_add_r by lia. lia.
Qed.

Lemma le_combine_word (bs : list byte) :
  length bs = 4%nat -> 0 <= le_combine bs < 2 ^ 32.
Proof.
  intros Hl. pose proof (le_combine_bound bs) as Hb. rewrite Hl in Hb. exact Hb.
Qed.

Lemma user_bytes_at_cons (m : memory) (a : Z) (b : byte) (bs : list byte) :
  user_bytes_at m a (b :: bs) ->
  (wrap32 a < PHYS_BASE /\ m (wrap32 a) = Some b) /\
  user_bytes_at m (wrap32 (a + 1)) bs.
Proof.
  intros Hu. split.
  - specialize (Hu 0%nat b eq_refl). now rewrite Z.add_0_r in Hu.
  - intros j c Hj. rewrite wrap32_succ. now apply (Hu (S j) c).
Qed.

Lemma user_bytes_at_get_user (m : memory) (a : Z) (bs : list byte) (j : nat) (b : byte) :
  user_bytes_at m a bs -> bs !! j = Some b ->
  get_user m (wrap32 (a + Z.of_nat j)) = byte_val b.
Proof.
  intros Hu Hj. destruct (Hu j b Hj) as [Hlt Hm].
  unfold get_user, movzbl. rewrite Hm.
  destruct (Z.ltb_spec (wrap32 (a + Z.of_nat j)) PHYS_BASE); [reflexivity|lia].
Qed.

(** A range of user bytes passes [check_buffer]. *)
Lemma check_buffer_user_bytes (m : memory) (bs : list byte) :
  forall a : Z, 0 <= a < 2 ^ 32 -> user_bytes_at m a bs ->
    check_buffer_loop m (length bs) a = true.
Proof.
  induction bs as [|b bs IH]; intros a Ha Hu; [reflexivity|].
  apply user_bytes_at_cons in Hu as [[Hlt Hm] Hrest].
  rewrite (wrap32_small a Ha) in Hlt, Hm.
  cbn [length check_buffer_loop].
  assert (check_addr a = true) as -> by (apply check_addr_true; lia).
  assert (get_user m a = byte_val b) as ->.
  { unfold get_user, movzbl. rewrite Hm.
    destruct (Z.ltb_spec a PHYS_BASE); [reflexivity|lia]. }
  pose proof (byte_val_range b).
  destruct (Z.ltb_spec (byte_val b) 0); [lia|]. simpl.
  apply IH; [apply wrap32_range|exact Hrest].
Qed.

(** An unguarded read of a range of user bytes does not fault. *)
Lemma load_bytes_user_bytes (m : memory) (bs : list byte) :
  forall a : Z, 0 <= a < 2 ^ 32 -> user_bytes_at m a bs ->
    load_bytes m a (length bs) = Some bs.
Proof.
  induction bs as [|b bs IH]; intros a Ha Hu; [reflexivity|].
  apply user_bytes_at_cons in Hu as [[Hlt Hm] Hrest].
  rewrite (wrap32_small a Ha) in Hm.
  cbn [length load_bytes]. rewrite Hm.
  now rewrite (IH _ (wrap32_range _) Hrest).
Qed.

(** A word of user bytes is copied whole into a 4-byte local. *)
Lemma memread_user_word (m : memory) (a : Z) (bs : list byte) :
  length bs = 4%nat -> user_bytes_at m a bs ->
  memread_user m a local4 4 = (4, bs).
Proof.
  intros Hl Hu.
  destruct (memread_user_loop_spec m a 4 0 local4 4)
    as (dst' & Hrun & Hlen & Hin & Hout); simpl; try lia.
  - intros j Hj. destruct (lookup_lt_is_Some_2 bs j) as [b Hb]; [lia|].
    rewrite (user_bytes_at_get_user m a bs j b Hu Hb).
    apply byte_val_range.
  - unfold memread_user. change (Z.to_nat 4) with 4%nat. rewrite Hrun. simpl.
    f_equal. apply list_eq. intros j.
    destruct (Nat.lt_ge_cases j 4) as [Hj|Hj].
    + rewrite Hin by lia.
      destruct (lookup_lt_is_Some_2 bs j) as [b Hb]; [lia|].
      rewrite Hb. now destruct (Hu j b Hb).
    + rewrite Hout by lia. simpl in Hlen.
      rewrite (lookup_ge_None_2 bs) by lia.
      apply lookup_ge_None_2. simpl. lia.
Qed.

(** ** The dispatcher *)

Section DispatchProperties.
Context `{Collaborators}.

(** Once the stack pointer and the opcode word have passed the two
    checks, the handler is the [switch] on the opcode read there; the
    unguarded read of the opcode does not fault. *)
Lemma syscall_handler_dispatch (f : intr_frame) (k : kernel) (n : Z) :
  0 <= esp f < 2 ^ 32 ->
  user_int_at (user_memory k) (esp f) n ->
  syscall_handler f k = switch_syscall f n k.
Proof.
  intros Hsp (bs & Hl & Hu & Hn).
  assert (check_addr (esp f) = true) as Hca.
  { apply check_addr_true.
    destruct (lookup_lt_is_Some_2 bs 0) as [b Hb]; [lia|].
    destruct (Hu 0%nat b Hb) as [Hlt _].
    rewrite Z.add_0_r, wrap32_small in Hlt by lia. lia. }
  pose proof (check_buffer_user_bytes _ bs _ Hsp Hu) as Hcb.
  pose proof (load_bytes_user_bytes _ bs _ Hsp Hu) as Hld.
  rewrite Hl in Hcb, Hld.
  unfold syscall_handler. run_monad. unfold deref_int, check_buffer.
  rewrite Hca. cbn [negb]. change (Z.to_nat 4) with 4%nat. rewrite Hcb.
  cbn [negb]. rewrite Hld, Hn. reflexivity.
Qed.

Lemma unhandled_run (f : intr_frame) (k : kernel) (n : Z)
    (p : process_control_block) :
  pcb (current k) = Some p ->
  unhandled f n k =
  (Stop ThreadExited,
   exited_kernel (-1) p
     (logged [Printf "[ERROR] system call %d is unimplemented!\n" [ArgInt n]] k)).
Proof.
  intros Hp. unfold unhandled. run_monad.
  erewrite sys_exit_run by exact Hp. reflexivity.
Qed.

(** C4: the opcode word is readable user memory and holds [n], which is
    none of HALT, EXIT, EXEC, WAIT, WRITE. The handler prints the
    diagnostic with [n] and goes through [sys_exit (-1)]: the PCB gets
    [exited = true] and [exitcode = -1], its semaphore is raised, and the
    thread ends. *)
Theorem unimplemented_opcode_exits (f : intr_frame) (k : kernel) (n : Z)
    (p : process_control_block)
    (Hsp : 0 <= esp f < 2 ^ 32)
    (Hop : user_int_at (user_memory k) (esp f) n)
    (Hnot : ~ In n [SYS_HALT; SYS_EXIT; SYS_EXEC; SYS_WAIT; SYS_WRITE])
    (Hpcb : pcb (current k) = Some p) :
  exists k' : kernel,
    syscall_handler f k = (Stop ThreadExited, k') /\
    pcb (current k') = Some (mk_pcb (pid p) true (-1) (S (sema_wait p))) /\
    trace k' =
      trace k ++
        [Printf "[ERROR] system call %d is unimplemented!\n" [ArgInt n];
         Printf "%s: exit(%d)\n" [ArgStr (name (current k)); ArgInt (-1)];
         PcbSetExited true; PcbSetExitcode (-1); SemaUp; ThreadExit].
Proof.
  exists (exited_kernel (-1) p
            (logged [Printf "[ERROR] system call %d is unimplemented!\n" [ArgInt n]] k)).
  split; [|split].
  - rewrite (syscall_handler_dispatch f k n Hsp Hop).
    assert (switch_syscall f n = unhandled f n) as ->; [|now apply unhandled_run].
    unfold switch_syscall.
    destruct (Z.eqb_spec n SYS_HALT) as [->|_]; [exfalso; apply Hnot; simpl; tauto|].
    destruct (Z.eqb_spec n SYS_EXIT) as [->|_]; [exfalso; apply Hnot; simpl; tauto|].
    destruct (Z.eqb_spec n SYS_EXEC) as [->|_]; [exfalso; apply Hnot; simpl; tauto|].
    destruct (Z.eqb_spec n SYS_WAIT) as [->|_]; [exfalso; apply Hnot; simpl; tauto|].
    destruct (Z.eqb_spec n SYS_WRITE) as [->|_]; [exfalso; apply Hnot; simpl; tauto|].
    destruct (_ || _ || _ || _ || _); [reflexivity|].
    destruct (_ || _ || _); reflexivity.
  - reflexivity.
  - unfold exited_kernel, logged. simpl. now rewrite <- app_assoc.
Qed.

(** C8: the opcode word is readable user memory and holds [SYS_HALT].
    The handler calls [shutdown_power_off] and nothing else: the state is
    the one it was entered with, with the single event [PowerOff]
    appended, and the handler does not return. *)
Theorem halt_only_powers_off (f : intr_frame) (k : kernel)
    (Hsp : 0 <= esp f < 2 ^ 32)
    (Hop : user_int_at (user_memory k) (esp f) SYS_HALT) :
  syscall_handler f k = (Stop PoweredOff, logged [PowerOff] k).
Proof.
  rewrite (syscall_handler_dispatch f k SYS_HALT Hsp Hop).
  reflexivity.
Qed.
End DispatchProperties.

(** ** The write handler *)

Section WriteProperties.
Context `{Collaborators}.

(** [sys_write] on a descriptor other than 1: it ends the thread when
    the first byte of the buffer is not readable, and otherwise prints its
    diagnostic and returns [false]; in neither case does it reach
    [putbuf] or [sys_exit]. *)
Lemma sys_write_other_fd (fd buffer size ret : Z) (k : kernel) :
  fd <> 1 ->
  sys_write fd buffer size ret k =
  if get_user (user_memory k) buffer =? -1
  then (Stop ThreadExited, logged [ThreadExit] k)
  else (Normal (false, ret),
        logged [Printf "[ERROR] sys_write unimplemented\n" []] k).
Proof.
  intros Hfd. unfold sys_write. run_monad.
  destruct (get_user (user_memory k) buffer =? -1); [reflexivity|].
  destruct (Z.eqb_spec fd 1); [contradiction|reflexivity].
Qed.

(** [sys_write] on descriptor 1 probes the first byte of the buffer and
    no other: when that byte is readable, the [size] bytes that an
    unguarded read finds at [buffer] go to the console, wherever they lie. *)
Lemma sys_write_console (buffer size ret : Z) (k : kernel) (bs : list byte) :
  get_user (user_memory k) buffer <> -1 ->
  load_bytes (user_memory k) buffer (Z.to_nat size) = Some bs ->
  sys_write 1 buffer size ret k =
  (Normal (true, to_int32 size), logged [Putbuf bs] k).
Proof.
  intros Hfirst Hld. unfold sys_write. run_monad.
  destruct (Z.eqb_spec (get_user (user_memory k) buffer) (-1)); [contradiction|].
  change (1 =? 1) with true. cbv beta iota. unfold putbuf.
  now rewrite Hld.
Qed.

(** The handler on [write] to a descriptor other than 1 with a readable
    first byte: the diagnostic of [sys_write], then [thread_exit]. *)
Lemma write_other_descriptor_run (f : intr_frame) (k : kernel)
    (fd buffer size : Z) :
  0 <= esp f < 2 ^ 32 ->
  user_int_at (user_memory k) (esp f) SYS_WRITE ->
  user_int_at (user_memory k) (wrap32 (esp f + 4)) fd ->
  user_word_at (user_memory k) (wrap32 (esp f + 8)) buffer ->
  user_word_at (user_memory k) (wrap32 (esp f + 12)) size ->
  fd <> 1 ->
  get_user (user_memory k) buffer <> -1 ->
  syscall_handler f k =
  (Stop ThreadExited,
   logged [Printf "[ERROR] sys_write unimplemented\n" []; ThreadExit] k).
Proof.
  intros Hsp Hop (fdb & Hfl & Hfu & Hfv) (bufb & Hbl & Hbu & Hbv)
    (szb & Hsl & Hsu & Hsv) Hfd Hfirst.
  rewrite (syscall_handler_dispatch f k SYS_WRITE Hsp Hop).
  change (switch_syscall f SYS_WRITE) with (case_SYS_WRITE f).
  unfold case_SYS_WRITE. run_monad.
  rewrite (memread_user_word _ _ fdb Hfl Hfu).
  change (-1 =? 4) with false. cbv beta iota.
  rewrite (memread_user_word _ _ bufb Hbl Hbu).
  change (-1 =? 4) with false. cbv beta iota.
  rewrite (memread_user_word _ _ szb Hsl Hsu).
  change (-1 =? 4) with false. cbv beta iota.
  rewrite Hfv, Hbv, Hsv.
  rewrite (sys_write_other_fd fd buffer size 0 k Hfd).
  destruct (Z.eqb_spec (get_user (user_memory k) buffer) (-1)); [contradiction|].
  unfold logged. simpl. now rewrite <- app_assoc.
Qed.

(** C9: the stack holds the opcode [SYS_WRITE] and the arguments
    [1], [buffer], [size] in readable user memory, the first byte at
    [buffer] is readable and the [size] bytes [bs] at [buffer] lie in user
    memory. The handler returns with [size] in [eax], and the one thing it
    has done is to hand the bytes [bs] to the console. No other
    descriptor reaches the console: whatever its arguments and the state,
    [sys_write] on a descriptor other than 1 produces no [Putbuf]. *)
Theorem write_console (f : intr_frame) (k : kernel) (buffer size : Z)
    (bs : list byte)
    (Hsp : 0 <= esp f < 2 ^ 32)
    (Hop : user_int_at (user_memory k) (esp f) SYS_WRITE)
    (Hfd : user_int_at (user_memory k) (wrap32 (esp f + 4)) 1)
    (Hbuf : user_word_at (user_memory k) (wrap32 (esp f + 8)) buffer)
    (Hsize : user_word_at (user_memory k) (wrap32 (esp f + 12)) size)
    (Hfirst : get_user (user_memory k) buffer <> -1)
    (Hdata : user_bytes_at (user_memory k) buffer bs)
    (Hlen : length bs = Z.to_nat size) :
  syscall_handler f k = (Normal (set_eax f size), logged [Putbuf bs] k) /\
  (forall (fd' buffer' size' ret' : Z) (k0 : kernel) (e : event),
     fd' <> 1 ->
     In e (drop (length (trace k0))
             (trace (snd (sys_write fd' buffer' size' ret' k0)))) ->
     is_putbuf e = false).
Proof.
  split.
  - rewrite (syscall_handler_dispatch f k SYS_WRITE Hsp Hop).
    change (switch_syscall f SYS_WRITE) with (case_SYS_WRITE f).
    destruct Hfd as (fdb & Hfl & Hfu & Hfv).
    destruct Hbuf as (bufb & Hbl & Hbu & Hbv).
    destruct Hsize as (szb & Hsl & Hsu & Hsv).
    pose proof (le_combine_word bufb Hbl) as Hbr. rewrite Hbv in Hbr.
    pose proof (le_combine_word szb Hsl) as Hsr. rewrite Hsv in Hsr.
    unfold case_SYS_WRITE. run_monad.
    rewrite (memread_user_word _ _ fdb Hfl Hfu).
    change (-1 =? 4) with false. cbv beta iota.
    rewrite (memread_user_word _ _ bufb Hbl Hbu).
    change (-1 =? 4) with false. cbv beta iota.
    rewrite (memread_user_word _ _ szb Hsl Hsu).
    change (-1 =? 4) with false. cbv beta iota.
    rewrite Hfv, Hbv, Hsv. unfold sys_write. run_monad.
    destruct (Z.eqb_spec (get_user (user_memory k) buffer) (-1)); [contradiction|].
    change (1 =? 1) with true. cbv beta iota. unfold putbuf.
    rewrite <- Hlen, (load_bytes_user_bytes _ bs buffer Hbr Hdata).
    unfold emit. cbv beta iota. cbn [negb].
    rewrite wrap32_to_int32 by lia. reflexivity.
  - intros fd' buffer' size' ret' k0 e Hne.
    rewrite (sys_write_other_fd fd' buffer' size' ret' k0 Hne).
    destruct (get_user (user_memory k0) buffer' =? -1); simpl;
      rewrite drop_app_length; simpl; intros [<-|[]]; reflexivity.
Qed.
End WriteProperties.

(** ** Invalid accesses *)

Section InvalidAccess.
Context `{Collaborators}.

(** An opcode word that is not readable ends in [sys_exit (-1)]. *)
Lemma unreadable_opcode_exits (f : intr_frame) (k : kernel)
    (p : process_control_block) :
  check_addr (esp f) = true ->
  check_buffer (user_memory k) (esp f) 4 = false ->
  pcb (current k) = Some p ->
  syscall_handler f k = (Stop ThreadExited, exited_kernel (-1) p k).
Proof.
  intros Hca Hcb Hp. unfold syscall_handler. run_monad.
  rewrite Hca. cbn [negb]. rewrite Hcb. cbn [negb].
  unfold sys_badmemory_access. run_monad.
  now rewrite (sys_exit_run (-1) k p Hp).
Qed.

(** A command-line pointer that is not readable ends in [sys_exit (-1)]. *)
Lemma unreadable_cmdline_exits (cmdline : Z) (k : kernel)
    (p : process_control_block) :
  get_user (user_memory k) cmdline = -1 ->
  pcb (current k) = Some p ->
  sys_exec cmdline k = (Stop ThreadExited, exited_kernel (-1) p k).
Proof.
  intros Hg Hp. unfold sys_exec. run_monad. rewrite Hg.
  change (-1 =? -1) with true. cbv beta iota.
  unfold fail_invalid_access. run_monad.
  now rewrite (sys_exit_run (-1) k p Hp).
Qed.

(** A stack pointer that [check_addr] rejects ends the thread at once. *)
Lemma rejected_stack_pointer_exits (f : intr_frame) (k : kernel) :
  check_addr (esp f) = false ->
  syscall_handler f k = (Stop ThreadExited, logged [ThreadExit] k).
Proof.
  intros Hca. unfold syscall_handler. run_monad. now rewrite Hca.
Qed.
End InvalidAccess.

Section InvalidArgument.
Context `{Collaborators}.

(** An argument word that is not readable ends in [sys_exit (-1)], in
    each of the four handlers that read arguments. *)
Lemma unreadable_argument_exits (f : intr_frame) (k : kernel) (n : Z)
    (p : process_control_block) (dst' : list byte) :
  0 <= esp f < 2 ^ 32 ->
  user_int_at (user_memory k) (esp f) n ->
  In n [SYS_EXIT; SYS_EXEC; SYS_WAIT; SYS_WRITE] ->
  memread_user (user_memory k) (wrap32 (esp f + 4)) local4 4 = (-1, dst') ->
  pcb (current k) = Some p ->
  syscall_handler f k = (Stop ThreadExited, exited_kernel (-1) p k).
Proof.
  intros Hsp Hop Hn Hmem Hp.
  rewrite (syscall_handler_dispatch f k n Hsp Hop).
  destruct Hn as [<-|[<-|[<-|[<-|[]]]]].
  - change (switch_syscall f SYS_EXIT) with (case_SYS_EXIT f).
    unfold case_SYS_EXIT. run_monad. rewrite Hmem.
    change (-1 =? -1) with true. cbv beta iota.
    unfold fail_invalid_access. run_monad.
    now rewrite (sys_exit_run (-1) k p Hp).
  - change (switch_syscall f SYS_EXEC) with (case_SYS_EXEC f).
    unfold case_SYS_EXEC. run_monad. rewrite Hmem.
    change (-1 =? -1) with true. cbv beta iota.
    unfold fail_invalid_access. run_monad.
    now rewrite (sys_exit_run (-1) k p Hp).
  - change (switch_syscall f SYS_WAIT) with (case_SYS_WAIT f).
    unfold case_SYS_WAIT. run_monad. rewrite Hmem.
    change (-1 =? -1) with true. cbv beta iota.
    unfold fail_invalid_access. run_monad.
    now rewrite (sys_exit_run (-1) k p Hp).
  - change (switch_syscall f SYS_WRITE) with (case_SYS_WRITE f).
    unfold case_SYS_WRITE. run_monad. rewrite Hmem.
    change (-1 =? -1) with true. cbv beta iota.
    unfold fail_invalid_access. run_monad.
    now rewrite (sys_exit_run (-1) k p Hp).
Qed.
End InvalidArgument.

(** ** The handler on concrete traps *)

(** The bytes of a short literal list lie in a concrete memory. *)
Ltac concrete_user_bytes :=
  let j := fresh "j" in
  let b := fresh "b" in
  let Hb := fresh "Hb" in
  intros j b Hb;
  repeat (destruct j as [|j];
          [injection Hb as <-; split; reflexivity|]);
  discriminate Hb.

Ltac concrete_user_word bs :=
  exists bs; split; [reflexivity|]; split; [concrete_user_bytes|reflexivity].

(** [read] is in the enumeration and has no handler: the process goes
    through [sys_exit (-1)]. *)
Lemma unimplemented_opcode_exits_witness :
  exists k' : kernel,
    trap mem_read 0xBFFFF000 = (Stop ThreadExited, k') /\
    pcb (current k') = Some (mk_pcb 3 true (-1) 1) /\
    trace k' =
      [Printf "[ERROR] system call %d is unimplemented!\n" [ArgInt SYS_READ];
       Printf "%s: exit(%d)\n" [ArgStr "main"; ArgInt (-1)];
       PcbSetExited true; PcbSetExitcode (-1); SemaUp; ThreadExit].
Proof.
  apply (@unimplemented_opcode_exits idle (mk_frame 0xBFFFF000 0)
           (proc mem_read) SYS_READ fresh_pcb).
  - simpl. lia.
  - concrete_user_word (le_split 4 SYS_READ).
  - unfold SYS_READ, SYS_HALT, SYS_EXIT, SYS_EXEC, SYS_WAIT, SYS_WRITE.
    simpl. lia.
  - reflexivity.
Defined.

(** [halt] with an argument word above the opcode: the machine is powered
    off and the exit handler has left no trace. *)
Lemma halt_only_powers_off_witness :
  trap mem_halt 0xBFFFF000 = (Stop PoweredOff, logged [PowerOff] (proc mem_halt)).
Proof.
  apply (@halt_only_powers_off idle (mk_frame 0xBFFFF000 0) (proc mem_halt)).
  - simpl. lia.
  - concrete_user_word (le_split 4 SYS_HALT).
Defined.

(** [write (1, "hi", 2)]. *)
Lemma write_console_witness :
  trap mem_write_hi 0xBFFFF000 =
  (Normal (mk_frame 0xBFFFF000 2),
   logged [Putbuf ["h"; "i"]%byte] (proc mem_write_hi)).
Proof.
  apply (@write_console idle (mk_frame 0xBFFFF000 0) (proc mem_write_hi)
           0xBFFFF100 2 ["h"; "i"]%byte).
  - simpl. lia.
  - concrete_user_word (le_split 4 SYS_WRITE).
  - concrete_user_word (le_split 4 1).
  - concrete_user_word (le_split 4 0xBFFFF100).
  - concrete_user_word (le_split 4 2).
  - vm_compute. discriminate.
  - concrete_user_bytes.
  - reflexivity.
Defined.

(** C1, on two traps. With the stack pointer above [PHYS_BASE], and with
    [write] on a buffer in kernel memory, the handler ends the thread by
    [thread_exit] alone: nothing is printed, the PCB still has
    [exited = false] and exit code 0, and its semaphore has not been
    raised. [sys_exit (-1)], which the unreadable opcode word, argument
    word and command line go through, is not reached. *)
Theorem invalid_access_bypasses_exit :
  (check_addr 0xC0000004 = false /\
   fst (trap mem_exit 0xC0000004) = Stop ThreadExited /\
   current (snd (trap mem_exit 0xC0000004)) = mk_thread "main" (Some fresh_pcb) /\
   trace (snd (trap mem_exit 0xC0000004)) = [ThreadExit]) /\
  (get_user mem_write_kernel 0xC0000000 = -1 /\
   fst (trap mem_write_kernel 0xBFFFF000) = Stop ThreadExited /\
   current (snd (trap mem_write_kernel 0xBFFFF000)) = mk_thread "main" (Some fresh_pcb) /\
   trace (snd (trap mem_write_kernel 0xBFFFF000)) = [ThreadExit]).
Proof. repeat split. Qed.

(** C2, on one trap: [write (1, PHYS_BASE - 1, 2)]. The first byte of the
    buffer is a user byte, the second is the byte at [PHYS_BASE], which no
    probe accepts and with which [check_buffer] rejects the range. The
    handler probes the first byte only: it hands both bytes to the console
    and returns 2. *)
Theorem write_checks_first_byte_only :
  get_user mem_write_straddle 0xBFFFFFFF = 104 /\
  get_user mem_write_straddle 0xC0000000 = -1 /\
  check_buffer mem_write_straddle 0xBFFFFFFF 2 = false /\
  fst (trap mem_write_straddle 0xBFFFF000) = Normal (mk_frame 0xBFFFF000 2) /\
  trace (snd (trap mem_write_straddle 0xBFFFF000)) = [Putbuf ["h"; "K"]%byte].
Proof. repeat split. Qed.

(** C5, on one trap: [write (99, buffer, 2)] with a readable buffer. No
    byte reaches the console and [sys_write] prints its diagnostic, and
    then the handler ends the thread by [thread_exit] alone: the PCB still
    has [exited = false] and exit code 0, and its semaphore has not been
    raised. *)
Theorem write_other_descriptor_bypasses_exit :
  fst (trap mem_write_99 0xBFFFF000) = Stop ThreadExited /\
  current (snd (trap mem_write_99 0xBFFFF000)) = mk_thread "main" (Some fresh_pcb) /\
  trace (snd (trap mem_write_99 0xBFFFF000)) =
    [Printf "[ERROR] sys_write unimplemented\n" []; ThreadExit].
Proof. repeat split. Qed.

(** * Further properties of the code *)

(** ** The validators, again *)

(** In [check_buffer] the test of [check_addr] never decides: an address
    it rejects is rejected by the probe as well. *)
Lemma check_addr_redundant (m : memory) (x : Z) :
  negb (check_addr x) || (get_user m x <? 0) = (get_user m x <? 0).
Proof.
  unfold check_addr, get_user.
  destruct (Z.ltb_spec PHYS_BASE x); [|reflexivity].
  destruct (Z.ltb_spec x PHYS_BASE); [lia|reflexivity].
Qed.

Lemma check_buffer_loop_spec (m : memory) :
  forall (n : nat) (a : Z), 0 <= a < 2 ^ 32 ->
    (check_buffer_loop m n a = true <->
     forall j : nat, (j < n)%nat -> 0 <= get_user m (wrap32 (a + Z.of_nat j))).
Proof.
  induction n as [|n IH]; intros a Ha.
  - simpl. split; [intros _ j Hj; lia|reflexivity].
  - cbn [check_buffer_loop]. rewrite check_addr_redundant.
    destruct (Z.ltb_spec (get_user m a) 0) as [Hbad|Hgood].
    + split; [discriminate|]. intros Hall.
      specialize (Hall 0%nat ltac:(lia)).
      rewrite Z.add_0_r, (wrap32_small a Ha) in Hall. lia.
    + rewrite (IH (wrap32 (a + 1)) (wrap32_range _)). split.
      * intros Hall [|j] Hj.
        -- now rewrite Z.add_0_r, (wrap32_small a Ha).
        -- rewrite <- wrap32_succ. apply Hall. lia.
      * intros Hall j Hj. rewrite wrap32_succ. apply Hall. lia.
Qed.

(** X1: [check_buffer buffer size] accepts exactly the ranges of which
    every byte passes the probe [get_user], the addresses being taken
    modulo 2^32; so every byte of an accepted range is mapped and strictly
    below [PHYS_BASE], although [check_addr] alone accepts [PHYS_BASE]. *)
Theorem check_buffer_spec (m : memory) (buffer size : Z)
    (Hptr : 0 <= buffer < 2 ^ 32) :
  check_buffer m buffer size = true <->
  forall j : nat, (j < Z.to_nat size)%nat ->
    wrap32 (buffer + Z.of_nat j) < PHYS_BASE /\
    exists b : byte, m (wrap32 (buffer + Z.of_nat j)) = Some b.
Proof.
  unfold check_buffer. rewrite (check_buffer_loop_spec m _ buffer Hptr).
  split; intros Hall j Hj.
  - specialize (Hall j Hj).
    apply get_user_nonneg in Hall as (Hlt & b & Hb & _); eauto.
  - destruct (Hall j Hj) as (Hlt & b & Hb).
    apply get_user_nonneg. split; [exact Hlt|]. exists b. split; [exact Hb|].
    unfold get_user, movzbl. rewrite Hb.
    destruct (Z.ltb_spec (wrap32 (buffer + Z.of_nat j)) PHYS_BASE); [reflexivity|lia].
Qed.

(** The last byte of user memory is accepted; the two bytes from there
    are not, the second being the byte at [PHYS_BASE]. *)
Lemma check_buffer_spec_witness :
  0 <= 0xBFFFFFFF < 2 ^ 32 /\
  check_buffer mem_write_straddle 0xBFFFFFFF 1 = true /\
  check_buffer mem_write_straddle 0xBFFFFFFF 2 <> true.
Proof.
  split; [lia|]. split.
  - apply (check_buffer_spec mem_write_straddle 0xBFFFFFFF 1); [lia|].
    intros j Hj. assert (j = 0)%nat as -> by (simpl in Hj; lia).
    split; [reflexivity|]. exists "h"%byte. reflexivity.
  - intros Hacc.
    assert (0 <= 0xBFFFFFFF < 2 ^ 32) as Hptr by lia.
    pose proof (proj1 (check_buffer_spec mem_write_straddle 0xBFFFFFFF 2 Hptr) Hacc)
      as Hall.
    destruct (Hall 1%nat) as [Hlt _]; [simpl; lia|].
    vm_compute in Hlt. discriminate Hlt.
Defined.

Lemma memread_user_loop_frame (m : memory) (src : Z) :
  forall (n i : nat) (dst : list byte),
    length (snd (memread_user_loop m src n i dst)) = length dst /\
    forall j : nat, (j < i \/ i + n <= j)%nat ->
      snd (memread_user_loop m src n i dst) !! j = dst !! j.
Proof.
  induction n as [|n IH]; intros i dst; [simpl; auto|].
  cbn [memread_user_loop].
  destruct (get_user m (wrap32 (src + Z.of_nat i)) <? 0); [simpl; auto|].
  destruct (IH (S i) (<[i := byte_of_Z (Z.land (get_user m (wrap32 (src + Z.of_nat i))) 255)]> dst))
    as [Hl Hout].
  rewrite length_insert in Hl. split; [exact Hl|].
  intros j Hj. rewrite Hout by lia. apply list_lookup_insert_ne. lia.
Qed.

(** X2: whatever the memory, the source and the outcome,
    [memread_user src dst bytes] returns -1 or [(int) bytes], keeps the
    length of [dst], and leaves every byte of [dst] from offset [bytes] on
    as it was. *)
Theorem memread_user_stays_in_range (m : memory) (src : Z) (dst : list byte)
    (bytes : Z) :
  (fst (memread_user m src dst bytes) = -1 \/
   fst (memread_user m src dst bytes) = to_int32 bytes) /\
  length (snd (memread_user m src dst bytes)) = length dst /\
  forall j : nat, (Z.to_nat bytes <= j)%nat ->
    snd (memread_user m src dst bytes) !! j = dst !! j.
Proof.
  unfold memread_user.
  destruct (memread_user_loop_frame m src (Z.to_nat bytes) 0 dst) as [Hl Hout].
  destruct (memread_user_loop m src (Z.to_nat bytes) 0 dst) as [[|] dst'];
    simpl in *; (split; [auto|]); (split; [exact Hl|]);
    intros j Hj; apply Hout; lia.
Qed.

Lemma memread_user_loop_check (m : memory) (src : Z) :
  forall (n i : nat) (dst : list byte),
    fst (memread_user_loop m src n i dst) =
    check_buffer_loop m n (wrap32 (src + Z.of_nat i)).
Proof.
  induction n as [|n IH]; intros i dst; [reflexivity|].
  cbn [memread_user_loop check_buffer_loop]. rewrite check_addr_redundant.
  destruct (get_user m (wrap32 (src + Z.of_nat i)) <? 0); [reflexivity|].
  rewrite IH. f_equal. unfold wrap32. rewrite Zplus_mod_idemp_l. f_equal. lia.
Qed.

(** X3: the two range validators agree. For a pointer [src] and a count
    that fits an [int], [memread_user src dst bytes] returns [bytes] when
    [check_buffer src bytes] accepts the range and -1 when it rejects it,
    whatever the destination. *)
Theorem memread_user_agrees_with_check_buffer (m : memory) (src : Z)
    (dst : list byte) (bytes : Z)
    (Hptr : 0 <= src < 2 ^ 32)
    (Hbytes : 0 <= bytes < 2 ^ 31) :
  fst (memread_user m src dst bytes) =
  if check_buffer m src bytes then bytes else -1.
Proof.
  unfold memread_user, check_buffer.
  pose proof (memread_user_loop_check m src (Z.to_nat bytes) 0 dst) as Hc.
  rewrite Z.add_0_r, (wrap32_small src Hptr) in Hc. rewrite <- Hc.
  destruct (memread_user_loop m src (Z.to_nat bytes) 0 dst) as [[|] dst'];
    simpl; [now apply to_int32_small|reflexivity].
Qed.

Lemma memread_user_agrees_with_check_buffer_witness :
  fst (memread_user mem_write_straddle 0xBFFFFFFF [x01; x02] 2) = -1 /\
  fst (memread_user mem_write_hi 0xBFFFF100 [x01; x02] 2) = 2.
Proof.
  split.
  - rewrite (memread_user_agrees_with_check_buffer mem_write_straddle
               0xBFFFFFFF [x01; x02] 2); [reflexivity|lia|lia].
  - rewrite (memread_user_agrees_with_check_buffer mem_write_hi
               0xBFFFF100 [x01; x02] 2); [reflexivity|lia|lia].
Defined.

(** ** The coordinator, again *)

(** X4: on a thread whose [pcb] pointer is [NULL], [sys_exit] prints its
    line and then fails its assertion: the kernel panics, and neither a
    write to a PCB nor [sema_up] nor [thread_exit] has happened. *)
Theorem sys_exit_null_pcb_panics (status : Z) (k : kernel)
    (Hnull : pcb (current k) = None) :
  sys_exit status k =
  (Stop KernelPanic,
   logged [Printf "%s: exit(%d)\n" [ArgStr (name (current k)); ArgInt status]] k) /\
  pcb_actions
    (drop (length (trace k)) (trace (snd (sys_exit status k)))) = [] /\
  ~ In ThreadExit (drop (length (trace k)) (trace (snd (sys_exit status k)))).
Proof.
  rewrite (sys_exit_no_pcb status k Hnull). split; [reflexivity|].
  unfold logged. simpl. rewrite drop_app_length. split; [reflexivity|].
  simpl. intros [Heq|[]]. discriminate Heq.
Qed.

Lemma sys_exit_null_pcb_panics_witness :
  fst (sys_exit 0 (mk_kernel empty_memory (mk_thread "idle" None) []))
    = Stop KernelPanic /\
  trace (snd (sys_exit 0 (mk_kernel empty_memory (mk_thread "idle" None) [])))
    = [Printf "%s: exit(%d)\n" [ArgStr "idle"; ArgInt 0]].
Proof.
  destruct (sys_exit_null_pcb_panics 0
              (mk_kernel empty_memory (mk_thread "idle" None) []) eq_refl)
    as (Hrun & _).
  rewrite Hrun. split; reflexivity.
Defined.

Lemma sys_exit_stops (status : Z) (k : kernel) :
  exists (why : stop) (k' : kernel),
    sys_exit status k = (Stop why, k') /\
    (why = KernelPanic -> pcb (current k) = None).
Proof.
  destruct (pcb (current k)) as [p|] eqn:Hp.
  - exists ThreadExited, (exited_kernel status p k).
    split; [now apply sys_exit_run|discriminate].
  - eexists _, _. split; [now apply sys_exit_no_pcb|reflexivity].
Qed.

(** X5: [fail_invalid_access] and [sys_badmemory_access] are
    [sys_exit (-1)]: they stop where it stops, in the state it leaves, and
    the [NOT_REACHED] after it is not reached, so that they panic only on
    a thread without a PCB. *)
Theorem invalid_access_helpers_are_exit (k : kernel) :
  exists (why : stop) (k' : kernel),
    sys_exit (-1) k = (Stop why, k') /\
    fail_invalid_access k = (Stop why, k') /\
    sys_badmemory_access k = (Stop why, k') /\
    (why = KernelPanic -> pcb (current k) = None).
Proof.
  destruct (sys_exit_stops (-1) k) as (why & k' & Hrun & Hpanic).
  exists why, k'. unfold fail_invalid_access, sys_badmemory_access.
  run_monad. rewrite Hrun. auto.
Qed.

(** ** The handlers, one by one *)

Lemma wrap32_idem (z : Z) : wrap32 (wrap32 z) = wrap32 z.
Proof. unfold wrap32. apply Z.mod_mod. lia. Qed.

Lemma to_int32_wrap32 (z : Z) :
  - 2 ^ 31 <= z < 2 ^ 31 -> to_int32 (wrap32 z) = z.
Proof.
  intros Hz. unfold to_int32. cbv zeta. rewrite wrap32_idem. unfold wrap32.
  destruct (Z.neg_nonneg_cases z) as [Hneg|Hpos].
  - assert (z mod 2 ^ 32 = z + 2 ^ 32) as ->.
    { symmetry. apply (Z.mod_unique z (2 ^ 32) (-1)); lia. }
    destruct (Z.ltb_spec (z + 2 ^ 32) (2 ^ 31)); lia.
  - rewrite Z.mod_small by lia.
    destruct (Z.ltb_spec z (2 ^ 31)); lia.
Qed.

(** A range that [check_buffer] rejects makes [memread_user] return -1. *)
Lemma memread_user_rejected (m : memory) (src : Z) (dst : list byte) :
  0 <= src < 2 ^ 32 ->
  check_buffer m src 4 = false ->
  exists dst' : list byte, memread_user m src dst 4 = (-1, dst').
Proof.
  intros Hptr Hcb. unfold memread_user, check_buffer in *.
  pose proof (memread_user_loop_check m src (Z.to_nat 4) 0 dst) as Hc.
  rewrite Z.add_0_r, (wrap32_small src Hptr), Hcb in Hc.
  destruct (memread_user_loop m src (Z.to_nat 4) 0 dst) as [[|] dst'];
    [discriminate Hc|]. now exists dst'.
Qed.

Ltac read_word bs Hl Hu :=
  rewrite (memread_user_word _ _ bs Hl Hu);
  try change (-1 =? 4) with false; try change (4 =? -1) with false;
  cbv beta iota.

Ltac fail_word Hmem :=
  rewrite Hmem; change (-1 =? -1) with true; cbv beta iota;
  unfold fail_invalid_access; run_monad.

Section HandlerProperties.
Context `{Collaborators}.

(** X6: [exit (status)] through the handler. With the opcode [SYS_EXIT]
    and the argument [status] readable on the user stack, the handler
    leaves the PCB with [exited = true] and [exitcode = status], the
    semaphore raised once, and ends the thread. *)
Theorem exit_records_status (f : intr_frame) (k : kernel) (status : Z)
    (p : process_control_block)
    (Hsp : 0 <= esp f < 2 ^ 32)
    (Hop : user_int_at (user_memory k) (esp f) SYS_EXIT)
    (Harg : user_int_at (user_memory k) (wrap32 (esp f + 4)) status)
    (Hpcb : pcb (current k) = Some p) :
  syscall_handler f k = (Stop ThreadExited, exited_kernel status p k).
Proof.
  destruct Harg as (bs & Hl & Hu & Hv).
  rewrite (syscall_handler_dispatch f k SYS_EXIT Hsp Hop).
  change (switch_syscall f SYS_EXIT) with (case_SYS_EXIT f).
  unfold case_SYS_EXIT. run_monad. read_word bs Hl Hu.
  rewrite Hv. now rewrite (sys_exit_run status k p Hpcb).
Qed.

(** X7: [exec (cmdline)] through the handler. With the opcode and the
    pointer readable on the user stack and the first byte of the command
    line readable, the handler runs [process_execute] on the pointer, in
    the state it was entered with, and returns with the identifier it gave
    in [eax], as the 32 bits of the [int]; read back as an [int], [eax] is
    that identifier. *)
Theorem exec_returns_child_id (f : intr_frame) (k k1 : kernel)
    (cmdline tid : Z)
    (Hsp : 0 <= esp f < 2 ^ 32)
    (Hop : user_int_at (user_memory k) (esp f) SYS_EXEC)
    (Harg : user_word_at (user_memory k) (wrap32 (esp f + 4)) cmdline)
    (Hfirst : get_user (user_memory k) cmdline <> -1)
    (Hchild : process_execute cmdline k = (Normal tid, k1))
    (Hint : - 2 ^ 31 <= tid < 2 ^ 31) :
  syscall_handler f k = (Normal (set_eax f (wrap32 tid)), k1) /\
  to_int32 (eax (set_eax f (wrap32 tid))) = tid.
Proof.
  destruct Harg as (bs & Hl & Hu & Hv). split.
  - rewrite (syscall_handler_dispatch f k SYS_EXEC Hsp Hop).
    change (switch_syscall f SYS_EXEC) with (case_SYS_EXEC f).
    unfold case_SYS_EXEC. run_monad. read_word bs Hl Hu.
    rewrite Hv. unfold sys_exec. run_monad.
    destruct (Z.eqb_spec (get_user (user_memory k) cmdline) (-1)); [contradiction|].
    cbv beta iota. now rewrite Hchild.
  - simpl. now apply to_int32_wrap32.
Qed.

(** X8: [exec] on a command line of which the first byte is not readable
    (a null pointer, a hole, a kernel address). The process goes through
    [sys_exit (-1)], and [process_execute] is not run: the outcome is the
    same whatever the process manager. *)
Theorem exec_bad_command_line_exits (f : intr_frame) (k : kernel)
    (cmdline : Z) (p : process_control_block)
    (Hsp : 0 <= esp f < 2 ^ 32)
    (Hop : user_int_at (user_memory k) (esp f) SYS_EXEC)
    (Harg : user_word_at (user_memory k) (wrap32 (esp f + 4)) cmdline)
    (Hbad : get_user (user_memory k) cmdline = -1)
    (Hpcb : pcb (current k) = Some p) :
  syscall_handler f k = (Stop ThreadExited, exited_kernel (-1) p k).
Proof.
  destruct Harg as (bs & Hl & Hu & Hv).
  rewrite (syscall_handler_dispatch f k SYS_EXEC Hsp Hop).
  change (switch_syscall f SYS_EXEC) with (case_SYS_EXEC f).
  unfold case_SYS_EXEC. run_monad. read_word bs Hl Hu.
  rewrite Hv. now rewrite (unreadable_cmdline_exits cmdline k p Hbad Hpcb).
Qed.

(** X9: [wait (pid)] through the handler. With the opcode and the
    argument readable on the user stack, the handler runs [process_wait]
    on the argument read as an [int], in the state it was entered with,
    and returns with its result in [eax]; no other check is made and
    nothing else is done. *)
Theorem wait_returns_status (f : intr_frame) (k k1 : kernel) (child ret : Z)
    (Hsp : 0 <= esp f < 2 ^ 32)
    (Hop : user_int_at (user_memory k) (esp f) SYS_WAIT)
    (Harg : user_int_at (user_memory k) (wrap32 (esp f + 4)) child)
    (Hwait : process_wait child k = (Normal ret, k1))
    (Hint : - 2 ^ 31 <= ret < 2 ^ 31) :
  syscall_handler f k = (Normal (set_eax f (wrap32 ret)), k1) /\
  to_int32 (eax (set_eax f (wrap32 ret))) = ret.
Proof.
  destruct Harg as (bs & Hl & Hu & Hv). split.
  - rewrite (syscall_handler_dispatch f k SYS_WAIT Hsp Hop).
    change (switch_syscall f SYS_WAIT) with (case_SYS_WAIT f).
    unfold case_SYS_WAIT. run_monad. read_word bs Hl Hu.
    rewrite Hv. unfold sys_wait. now rewrite Hwait.
  - simpl. now apply to_int32_wrap32.
Qed.

(** X10: the first argument word. For each of [exit], [exec], [wait] and
    [write], when the opcode is readable and the four bytes above it are
    not all readable user memory, the process goes through
    [sys_exit (-1)]. *)
Theorem unreadable_first_argument_exits (f : intr_frame) (k : kernel) (n : Z)
    (p : process_control_block)
    (Hsp : 0 <= esp f < 2 ^ 32)
    (Hop : user_int_at (user_memory k) (esp f) n)
    (Hn : In n [SYS_EXIT; SYS_EXEC; SYS_WAIT; SYS_WRITE])
    (Harg : check_buffer (user_memory k) (wrap32 (esp f + 4)) 4 = false)
    (Hpcb : pcb (current k) = Some p) :
  syscall_handler f k = (Stop ThreadExited, exited_kernel (-1) p k).
Proof.
  destruct (memread_user_rejected (user_memory k) (wrap32 (esp f + 4)) local4
              (wrap32_range _) Harg) as [dst' Hmem].
  exact (unreadable_argument_exits f k n p dst' Hsp Hop Hn Hmem Hpcb).
Qed.

(** X11: the second and third argument words of [write]. When the
    descriptor is readable and the pointer is not, or both are and the
    length is not, the process goes through [sys_exit (-1)]. *)
Theorem write_unreadable_argument_exits (f : intr_frame) (k : kernel)
    (fd : Z) (p : process_control_block)
    (Hsp : 0 <= esp f < 2 ^ 32)
    (Hop : user_int_at (user_memory k) (esp f) SYS_WRITE)
    (Hfd : user_int_at (user_memory k) (wrap32 (esp f + 4)) fd)
    (Harg :
       check_buffer (user_memory k) (wrap32 (esp f + 8)) 4 = false \/
       ((exists buffer : Z,
           user_word_at (user_memory k) (wrap32 (esp f + 8)) buffer) /\
        check_buffer (user_memory k) (wrap32 (esp f + 12)) 4 = false))
    (Hpcb : pcb (current k) = Some p) :
  syscall_handler f k = (Stop ThreadExited, exited_kernel (-1) p k).
Proof.
  destruct Hfd as (fdb & Hfl & Hfu & Hfv).
  rewrite (syscall_handler_dispatch f k SYS_WRITE Hsp Hop).
  change (switch_syscall f SYS_WRITE) with (case_SYS_WRITE f).
  unfold case_SYS_WRITE. run_monad. read_word fdb Hfl Hfu.
  destruct Harg as [Hbad|[(buffer & bufb & Hbl & Hbu & Hbv) Hbad]].
  - destruct (memread_user_rejected (user_memory k) (wrap32 (esp f + 8)) local4
                (wrap32_range _) Hbad) as [dst' Hmem].
    fail_word Hmem. now rewrite (sys_exit_run (-1) k p Hpcb).
  - read_word bufb Hbl Hbu.
    destruct (memread_user_rejected (user_memory k) (wrap32 (esp f + 12)) local4
                (wrap32_range _) Hbad) as [dst' Hmem].
    fail_word Hmem. now rewrite (sys_exit_run (-1) k p Hpcb).
Qed.

(** X12: the opcode word. When [check_addr] accepts the stack pointer and
    the four bytes there are not all readable user memory, the process
    goes through [sys_exit (-1)]; this is what happens for the stack
    pointer [PHYS_BASE]. *)
Theorem unreadable_opcode_word_exits (f : intr_frame) (k : kernel)
    (p : process_control_block)
    (Hsp : esp f <= PHYS_BASE)
    (Hop : check_buffer (user_memory k) (esp f) 4 = false)
    (Hpcb : pcb (current k) = Some p) :
  syscall_handler f k = (Stop ThreadExited, exited_kernel (-1) p k).
Proof.
  apply unreadable_opcode_exits; [now apply check_addr_true|exact Hop|exact Hpcb].
Qed.

(** X13: a stack pointer above [PHYS_BASE]. The handler ends the thread at
    once: nothing is read, nothing is printed, the PCB and its semaphore
    are as they were. *)
Theorem stack_pointer_above_boundary (f : intr_frame) (k : kernel)
    (Hsp : PHYS_BASE < esp f) :
  syscall_handler f k = (Stop ThreadExited, logged [ThreadExit] k).
Proof.
  apply rejected_stack_pointer_exits. unfold check_addr.
  destruct (Z.ltb_spec PHYS_BASE (esp f)); [reflexivity|lia].
Qed.

(** X14: [write] on a buffer of which the first byte is not readable, for
    every descriptor and every length, the length 0 included. The handler
    ends the thread by [thread_exit] alone: no byte reaches the console,
    nothing is printed, the PCB and its semaphore are as they were. *)
Theorem write_bad_buffer_ends_thread (f : intr_frame) (k : kernel)
    (fd buffer size : Z)
    (Hsp : 0 <= esp f < 2 ^ 32)
    (Hop : user_int_at (user_memory k) (esp f) SYS_WRITE)
    (Hfd : user_int_at (user_memory k) (wrap32 (esp f + 4)) fd)
    (Hbuf : user_word_at (user_memory k) (wrap32 (esp f + 8)) buffer)
    (Hsize : user_word_at (user_memory k) (wrap32 (esp f + 12)) size)
    (Hbad : get_user (user_memory k) buffer = -1) :
  syscall_handler f k = (Stop ThreadExited, logged [ThreadExit] k).
Proof.
  destruct Hfd as (fdb & Hfl & Hfu & Hfv).
  destruct Hbuf as (bufb & Hbl & Hbu & Hbv).
  destruct Hsize as (szb & Hsl & Hsu & Hsv).
  rewrite (syscall_handler_dispatch f k SYS_WRITE Hsp Hop).
  change (switch_syscall f SYS_WRITE) with (case_SYS_WRITE f).
  unfold case_SYS_WRITE. run_monad.
  read_word fdb Hfl Hfu. read_word bufb Hbl Hbu. read_word szb Hsl Hsu.
  rewrite Hbv. unfold sys_write. run_monad. rewrite Hbad. reflexivity.
Qed.

(** X15: [write] on a descriptor other than 1, with the first byte of the
    buffer readable, for every length. [sys_write] prints its diagnostic
    and the handler ends the thread by [thread_exit]: no byte reaches the
    console, the PCB and its semaphore are as they were. *)
Theorem write_other_descriptor_ends_thread (f : intr_frame) (k : kernel)
    (fd buffer size : Z)
    (Hsp : 0 <= esp f < 2 ^ 32)
    (Hop : user_int_at (user_memory k) (esp f) SYS_WRITE)
    (Hfd : user_int_at (user_memory k) (wrap32 (esp f + 4)) fd)
    (Hbuf : user_word_at (user_memory k) (wrap32 (esp f + 8)) buffer)
    (Hsize : user_word_at (user_memory k) (wrap32 (esp f + 12)) size)
    (Hother : fd <> 1)
    (Hfirst : get_user (user_memory k) buffer <> -1) :
  syscall_handler f k =
  (Stop ThreadExited,
   logged [Printf "[ERROR] sys_write unimplemented\n" []; ThreadExit] k).
Proof.
  exact (write_other_descriptor_run f k fd buffer size Hsp Hop Hfd Hbuf Hsize
           Hother Hfirst).
Qed.
End HandlerProperties.

(** The stack above has the opcode at [0xBFFFF000] in each of them. *)
Lemma exit_records_status_witness :
  trap mem_exit 0xBFFFF000 =
  (Stop ThreadExited, exited_kernel 7 fresh_pcb (proc mem_exit)).
Proof.
  apply (@exit_records_status idle (mk_frame 0xBFFFF000 0) (proc mem_exit) 7
           fresh_pcb).
  - simpl. lia.
  - concrete_user_word (le_split 4 SYS_EXIT).
  - concrete_user_word (le_split 4 7).
  - reflexivity.
Defined.

Lemma exec_returns_child_id_witness :
  trap mem_exec 0xBFFFF000 = (Normal (mk_frame 0xBFFFF000 7), proc mem_exec).
Proof.
  apply (@exec_returns_child_id idle (mk_frame 0xBFFFF000 0) (proc mem_exec)
           (proc mem_exec) 0xBFFFF100 7).
  - simpl. lia.
  - concrete_user_word (le_split 4 SYS_EXEC).
  - concrete_user_word (le_split 4 0xBFFFF100).
  - vm_compute. discriminate.
  - reflexivity.
  - lia.
Defined.

Lemma exec_bad_command_line_exits_witness :
  trap mem_exec_null 0xBFFFF000 =
  (Stop ThreadExited, exited_kernel (-1) fresh_pcb (proc mem_exec_null)).
Proof.
  apply (@exec_bad_command_line_exits idle (mk_frame 0xBFFFF000 0)
           (proc mem_exec_null) 0 fresh_pcb).
  - simpl. lia.
  - concrete_user_word (le_split 4 SYS_EXEC).
  - concrete_user_word (le_split 4 0).
  - reflexivity.
  - reflexivity.
Defined.

Lemma wait_returns_status_witness :
  trap mem_wait 0xBFFFF000 = (Normal (mk_frame 0xBFFFF000 0), proc mem_wait).
Proof.
  apply (@wait_returns_status idle (mk_frame 0xBFFFF000 0) (proc mem_wait)
           (proc mem_wait) (-1) 0).
  - simpl. lia.
  - concrete_user_word (le_split 4 SYS_WAIT).
  - concrete_user_word (le_split 4 (-1)).
  - reflexivity.
  - lia.
Defined.

(** [exit] with its opcode in the last word of user memory. *)
Lemma unreadable_first_argument_exits_witness :
  trap mem_exit_top 0xBFFFFFFC =
  (Stop ThreadExited, exited_kernel (-1) fresh_pcb (proc mem_exit_top)).
Proof.
  apply (@unreadable_first_argument_exits idle (mk_frame 0xBFFFFFFC 0)
           (proc mem_exit_top) SYS_EXIT fresh_pcb).
  - simpl. lia.
  - concrete_user_word (le_split 4 SYS_EXIT).
  - simpl. tauto.
  - reflexivity.
  - reflexivity.
Defined.

(** [write] with its length in the first word of kernel memory. *)
Lemma write_unreadable_argument_exits_witness :
  trap mem_write_top 0xBFFFFFF4 =
  (Stop ThreadExited, exited_kernel (-1) fresh_pcb (proc mem_write_top)).
Proof.
  apply (@write_unreadable_argument_exits idle (mk_frame 0xBFFFFFF4 0)
           (proc mem_write_top) 1 fresh_pcb).
  - simpl. lia.
  - concrete_user_word (le_split 4 SYS_WRITE).
  - concrete_user_word (le_split 4 1).
  - right. split; [|reflexivity].
    exists 0xBFFFF100. concrete_user_word (le_split 4 0xBFFFF100).
  - reflexivity.
Defined.

(** The stack pointer [PHYS_BASE], with bytes mapped there. *)
Lemma unreadable_opcode_word_exits_witness :
  trap mem_write_kernel 0xC0000000 =
  (Stop ThreadExited, exited_kernel (-1) fresh_pcb (proc mem_write_kernel)).
Proof.
  apply (@unreadable_opcode_word_exits idle (mk_frame 0xC0000000 0)
           (proc mem_write_kernel) fresh_pcb).
  - unfold PHYS_BASE. simpl. lia.
  - reflexivity.
  - reflexivity.
Defined.

Lemma stack_pointer_above_boundary_witness :
  trap mem_exit 0xC0000001 =
  (Stop ThreadExited, logged [ThreadExit] (proc mem_exit)).
Proof.
  apply (@stack_pointer_above_boundary idle (mk_frame 0xC0000001 0)
           (proc mem_exit)).
  unfold PHYS_BASE. simpl. lia.
Defined.

(** [write (1, NULL, 0)]. *)
Lemma write_bad_buffer_ends_thread_witness :
  trap mem_write_null 0xBFFFF000 =
  (Stop ThreadExited, logged [ThreadExit] (proc mem_write_null)).
Proof.
  apply (@write_bad_buffer_ends_thread idle (mk_frame 0xBFFFF000 0)
           (proc mem_write_null) 1 0 0).
  - simpl. lia.
  - concrete_user_word (le_split 4 SYS_WRITE).
  - concrete_user_word (le_split 4 1).
  - concrete_user_word (le_split 4 0).
  - concrete_user_word (le_split 4 0).
  - reflexivity.
Defined.

Lemma write_other_descriptor_ends_thread_witness :
  trap mem_write_99 0xBFFFF000 =
  (Stop ThreadExited,
   logged [Printf "[ERROR] sys_write unimplemented\n" []; ThreadExit]
     (proc mem_write_99)).
Proof.
  apply (@write_other_descriptor_ends_thread idle (mk_frame 0xBFFFF000 0)
           (proc mem_write_99) 99 0xBFFFF100 2).
  - simpl. lia.
  - concrete_user_word (le_split 4 SYS_WRITE).
  - concrete_user_word (le_split 4 99).
  - concrete_user_word (le_split 4 0xBFFFF100).
  - concrete_user_word (le_split 4 2).
  - lia.
  - vm_compute. discriminate.
Defined.

(** ** What every trap keeps *)

Ltac run_monad_in H :=
  unfold thread_exit, shutdown_power_off, sema_up, thread_current, printf,
    emit, ASSERT, NOT_REACHED, pcb_update, halt_with, get_user_k,
    memread_user_k, check_buffer_k, when, mbind, M_bind, mret, M_ret in H.

Lemma M_bind_cases {A B : Type} (c : M A) (g : A -> M B) (k : kernel) :
  (exists (a : A) (k1 : kernel), c k = (Normal a, k1) /\ (c ≫= g) k = g a k1) \/
  (exists (why : stop) (k1 : kernel),
     c k = (Stop why, k1) /\ (c ≫= g) k = (Stop why, k1)).
Proof.
  unfold mbind, M_bind. destruct (c k) as [[a|why] k1]; [left|right]; eauto.
Qed.

Lemma returns_only_ret {A : Type} (P : A -> Prop) (a : A) :
  P a -> returns_only P (mret a).
Proof. intros Ha k a' k' Heq. injection Heq as <- _. exact Ha. Qed.

Lemma returns_only_bind {A B : Type} (P : B -> Prop) (c : M A) (g : A -> M B) :
  (forall a : A, returns_only P (g a)) -> returns_only P (c ≫= g).
Proof.
  intros Hg k b k' Heq.
  destruct (M_bind_cases c g k) as [(a & k1 & _ & Hb)|(why & k1 & _ & Hb)];
    rewrite Hb in Heq; [now apply (Hg a k1 b k')|discriminate].
Qed.

Lemma never_returns_bind_l {A B : Type} (c : M A) (g : A -> M B) :
  never_returns c -> never_returns (c ≫= g).
Proof.
  intros Hc k b k' Heq.
  destruct (M_bind_cases c g k) as [(a & k1 & Ha & _)|(why & k1 & _ & Hb)];
    [exact (Hc k a k1 Ha)|rewrite Hb in Heq; discriminate].
Qed.

Lemma never_returns_bind_r {A B : Type} (c : M A) (g : A -> M B) :
  (forall a : A, never_returns (g a)) -> never_returns (c ≫= g).
Proof.
  intros Hg k b k' Heq.
  destruct (M_bind_cases c g k) as [(a & k1 & _ & Hb)|(why & k1 & _ & Hb)];
    rewrite Hb in Heq; [exact (Hg a k1 b k' Heq)|discriminate].
Qed.

Lemma sys_exit_never_returns (status : Z) : never_returns (sys_exit status).
Proof.
  intros k a k' Heq.
  destruct (sys_exit_stops status k) as (why & k1 & Hrun & _).
  rewrite Hrun in Heq. discriminate.
Qed.

Lemma shutdown_power_off_never_returns {A : Type} :
  never_returns (shutdown_power_off (A := A)).
Proof. intros k a k' Heq. discriminate Heq. Qed.

Section TrapInvariants.
Context `{Collaborators}.

Lemma case_SYS_EXIT_never_returns (f : intr_frame) :
  never_returns (case_SYS_EXIT f).
Proof.
  unfold case_SYS_EXIT. apply never_returns_bind_r. intros [r exitcode].
  apply never_returns_bind_r. intros _. apply never_returns_bind_l.
  apply sys_exit_never_returns.
Qed.

Lemma unhandled_never_returns (f : intr_frame) (n : Z) :
  never_returns (unhandled f n).
Proof.
  unfold unhandled. apply never_returns_bind_r. intros _.
  apply never_returns_bind_l. apply sys_exit_never_returns.
Qed.

Lemma switch_syscall_returns (f f' : intr_frame) (n : Z) (k k' : kernel) :
  switch_syscall f n k = (Normal f', k') ->
  In n [SYS_EXEC; SYS_WAIT; SYS_WRITE].
Proof.
  unfold switch_syscall. intros Heq.
  destruct (Z.eqb_spec n SYS_HALT).
  { exfalso. revert Heq. apply never_returns_bind_l.
    apply shutdown_power_off_never_returns. }
  destruct (Z.eqb_spec n SYS_EXIT).
  { exfalso. revert Heq. apply case_SYS_EXIT_never_returns. }
  destruct (Z.eqb_spec n SYS_EXEC) as [->|_]; [simpl; tauto|].
  destruct (Z.eqb_spec n SYS_WAIT) as [->|_]; [simpl; tauto|].
  destruct (_ || _ || _ || _ || _).
  { exfalso. revert Heq. apply unhandled_never_returns. }
  destruct (Z.eqb_spec n SYS_WRITE) as [->|_]; [simpl; tauto|].
  exfalso. revert Heq.
  destruct (_ || _ || _); apply unhandled_never_returns.
Qed.

Lemma syscall_handler_keeps_esp (f : intr_frame) :
  returns_only (fun f' => esp f' = esp f) (syscall_handler f).
Proof.
  unfold syscall_handler, switch_syscall, case_SYS_EXIT, case_SYS_EXEC,
    case_SYS_WAIT, case_SYS_WRITE, unhandled.
  do 4 (apply returns_only_bind; intros ?).
  repeat match goal with
         | |- returns_only _ (if ?b then _ else _) => destruct b
         end;
    repeat first
      [ apply returns_only_ret; reflexivity
      | apply returns_only_bind; intros ?
      | match goal with
        | |- returns_only _ (let '(_, _) := ?a in _) => destruct a
        end ].
Qed.

(** X16: what comes back from a trap. When the handler returns to the
    user program, the opcode it read was [SYS_EXEC], [SYS_WAIT] or
    [SYS_WRITE], and the frame it returns has the stack pointer it was
    given: a trap changes [eax] only, and [halt], [exit] and every
    opcode without a handler do not return. *)
Theorem handler_returns_only_from (f f' : intr_frame) (k k' : kernel)
    (Hret : syscall_handler f k = (Normal f', k')) :
  esp f' = esp f /\
  exists n : Z,
    deref_int (esp f) k = (Normal n, k) /\
    In n [SYS_EXEC; SYS_WAIT; SYS_WRITE].
Proof.
  split; [exact (syscall_handler_keeps_esp f k f' k' Hret)|].
  unfold syscall_handler in Hret. run_monad_in Hret.
  destruct (check_addr (esp f)); cbn [negb] in Hret; [|discriminate Hret].
  destruct (check_buffer (user_memory k) (esp f) 4); cbn [negb] in Hret.
  - unfold deref_int in *.
    destruct (load_bytes (user_memory k) (esp f) 4) as [bs|];
      [|discriminate Hret].
    eexists. split; [reflexivity|].
    exact (switch_syscall_returns f f' _ k k' Hret).
  - exfalso. unfold sys_badmemory_access in Hret. run_monad_in Hret.
    destruct (sys_exit_stops (-1) k) as (why & k1 & Hrun & _).
    rewrite Hrun in Hret. discriminate Hret.
Qed.
End TrapInvariants.

Lemma handler_returns_only_from_witness :
  In SYS_WRITE [SYS_EXEC; SYS_WAIT; SYS_WRITE] /\
  deref_int 0xBFFFF000 (proc mem_write_hi) = (Normal SYS_WRITE, proc mem_write_hi).
Proof.
  assert (trap mem_write_hi 0xBFFFF000 =
          (Normal (mk_frame 0xBFFFF000 2),
           logged [Putbuf ["h"; "i"]%byte] (proc mem_write_hi))) as Hret
    by reflexivity.
  destruct (@handler_returns_only_from idle _ _ _ _ Hret) as (_ & n & Hn & Hin).
  pose proof Hn as Hread.
  change (deref_int 0xBFFFF000 (proc mem_write_hi))
    with (Normal SYS_WRITE, proc mem_write_hi) in Hread.
  injection Hread as Heq. rewrite <- Heq in Hin, Hn.
  split; [exact Hin|exact Hn].
Defined.

Lemma extends_refl (k : kernel) : extends k k.
Proof. repeat split. exists []. now rewrite app_nil_r. Qed.

Lemma extends_trans (k1 k2 k3 : kernel) :
  extends k1 k2 -> extends k2 k3 -> extends k1 k3.
Proof.
  intros (Hm1 & Hn1 & es1 & Ht1) (Hm2 & Hn2 & es2 & Ht2).
  split; [congruence|]. split; [congruence|].
  exists (es1 ++ es2). rewrite Ht2, Ht1. now rewrite <- app_assoc.
Qed.

Lemma framed_still {A : Type} (c : M A) :
  (forall k : kernel, snd (c k) = k) -> framed c.
Proof. intros Hc k. rewrite Hc. apply extends_refl. Qed.

Lemma framed_bind {A B : Type} (c : M A) (g : A -> M B) :
  framed c -> (forall a : A, framed (g a)) -> framed (c ≫= g).
Proof.
  intros Hc Hg k. specialize (Hc k).
  destruct (M_bind_cases c g k) as [(a & k1 & Ha & Hb)|(why & k1 & Ha & Hb)];
    rewrite Hb; rewrite Ha in Hc; simpl in Hc.
  - exact (extends_trans _ _ _ Hc (Hg a k1)).
  - exact Hc.
Qed.

Lemma framed_emit (e : event) : framed (emit e).
Proof. intros k. repeat split. now exists [e]. Qed.

Lemma framed_pcb_update (g : process_control_block -> process_control_block) :
  framed (pcb_update g).
Proof. intros k. repeat split. exists []. simpl. now rewrite app_nil_r. Qed.

Lemma framed_when {A : Type} (b : bool) (c : M A) :
  framed c -> framed (when b c).
Proof.
  intros Hc. unfold when. destruct b.
  - apply framed_bind; [exact Hc|]. intros _. now apply framed_still.
  - now apply framed_still.
Qed.

Lemma framed_deref_int (a : Z) : framed (deref_int a).
Proof.
  apply framed_still. intros k. unfold deref_int.
  now destruct (load_bytes (user_memory k) a 4).
Qed.

Lemma framed_putbuf (buffer size : Z) : framed (putbuf buffer size).
Proof.
  intros k. unfold putbuf.
  destruct (load_bytes (user_memory k) buffer (Z.to_nat size)).
  - apply framed_emit.
  - apply extends_refl.
Qed.

Lemma framed_thread_exit {A : Type} : framed (thread_exit (A := A)).
Proof.
  unfold thread_exit. apply framed_bind; [apply framed_emit|].
  intros _. now apply framed_still.
Qed.

Lemma framed_sema_up : framed sema_up.
Proof.
  unfold sema_up. apply framed_bind; [apply framed_pcb_update|].
  intros _. apply framed_emit.
Qed.

Lemma framed_sys_exit (status : Z) : framed (sys_exit status).
Proof.
  unfold sys_exit.
  apply framed_bind; [now apply framed_still|]. intros t.
  apply framed_bind; [apply framed_emit|]. intros _.
  apply framed_bind; [unfold ASSERT; destruct (bool_decide _); now apply framed_still|].
  intros _.
  apply framed_bind; [apply framed_pcb_update|]. intros _.
  apply framed_bind; [apply framed_emit|]. intros _.
  apply framed_bind; [apply framed_pcb_update|]. intros _.
  apply framed_bind; [apply framed_emit|]. intros _.
  apply framed_bind; [apply framed_sema_up|]. intros _.
  apply framed_thread_exit.
Qed.

Lemma framed_fail_invalid_access : framed fail_invalid_access.
Proof.
  unfold fail_invalid_access. apply framed_bind; [apply framed_sys_exit|].
  intros _. now apply framed_still.
Qed.

Lemma framed_sys_write (fd buffer size ret : Z) :
  framed (sys_write fd buffer size ret).
Proof.
  unfold sys_write. apply framed_bind; [now apply framed_still|]. intros v.
  destruct (v =? -1); [|destruct (fd =? 1)];
    (apply framed_bind; [|intros _; now apply framed_still]).
  - apply framed_thread_exit.
  - apply framed_putbuf.
  - apply framed_emit.
Qed.

Ltac framed_args :=
  repeat (apply framed_bind;
          [first [now apply framed_still
                 |apply framed_when; apply framed_fail_invalid_access]
          |let a := fresh "a" in
           intros a;
           match type of a with
           | prod _ _ => destruct a
           | _ => idtac
           end]).

Section Framing.
Context `{Collaborators}.
Hypothesis Hexec : forall cmdline : Z, framed (process_execute cmdline).
Hypothesis Hwait : forall child : Z, framed (process_wait child).

Lemma framed_case_SYS_EXIT (f : intr_frame) : framed (case_SYS_EXIT f).
Proof.
  unfold case_SYS_EXIT. framed_args.
  apply framed_bind; [apply framed_sys_exit|]. intros _.
  apply framed_bind; [now apply framed_still|]. intros _. now apply framed_still.
Qed.

Lemma framed_unhandled (f : intr_frame) (n : Z) : framed (unhandled f n).
Proof.
  unfold unhandled. apply framed_bind; [apply framed_emit|]. intros _.
  apply framed_bind; [apply framed_sys_exit|]. intros _. now apply framed_still.
Qed.

Lemma framed_case_SYS_EXEC (f : intr_frame) : framed (case_SYS_EXEC f).
Proof.
  unfold case_SYS_EXEC, sys_exec. framed_args.
  apply framed_bind; [|intros ?; now apply framed_still].
  framed_args.
  apply framed_bind; [apply Hexec|]. intros ?. now apply framed_still.
Qed.

Lemma framed_case_SYS_WAIT (f : intr_frame) : framed (case_SYS_WAIT f).
Proof.
  unfold case_SYS_WAIT, sys_wait. framed_args.
  apply framed_bind; [apply Hwait|]. intros ?. now apply framed_still.
Qed.

Lemma framed_case_SYS_WRITE (f : intr_frame) : framed (case_SYS_WRITE f).
Proof.
  unfold case_SYS_WRITE. framed_args.
  apply framed_bind; [apply framed_sys_write|]. intros [ok return_code].
  apply framed_bind; [apply framed_when; apply framed_thread_exit|].
  intros _. now apply framed_still.
Qed.

(** X17: a trap rewrites nothing. Whatever the frame and the state, and
    however the handler ends, the user memory and the name of the thread
    are as they were, and the trace is the old trace with events appended,
    provided [process_execute] and [process_wait] behave so. *)
Theorem handler_framed (f : intr_frame) (k : kernel) :
  extends k (snd (syscall_handler f k)).
Proof.
  revert k. change (framed (syscall_handler f)).
  unfold syscall_handler.
  apply framed_bind; [apply framed_when; apply framed_thread_exit|]. intros _.
  apply framed_bind; [now apply framed_still|]. intros ok.
  apply framed_bind.
  { apply framed_when. unfold sys_badmemory_access.
    apply framed_bind; [apply framed_sys_exit|]. intros _. now apply framed_still. }
  intros _. apply framed_bind; [apply framed_deref_int|]. intros n.
  unfold switch_syscall.
  repeat match goal with
         | |- framed (if ?b then _ else _) => destruct b
         end;
    first [ apply framed_case_SYS_EXIT | apply framed_case_SYS_EXEC
          | apply framed_case_SYS_WAIT | apply framed_case_SYS_WRITE
          | apply framed_unhandled | idtac ].
  apply framed_bind; [|intros _; apply framed_case_SYS_EXIT].
  unfold shutdown_power_off.
  apply framed_bind; [apply framed_emit|]. intros _. now apply framed_still.
Qed.
End Framing.

Lemma handler_framed_witness :
  user_memory (snd (trap mem_exit 0xBFFFF000)) = mem_exit /\
  name (current (snd (trap mem_exit 0xBFFFF000))) = "main"%string /\
  exists es : list event, trace (snd (trap mem_exit 0xBFFFF000)) = [] ++ es.
Proof.
  apply (@handler_framed idle).
  - intros cmdline. now apply framed_still.
  - intros child. now apply framed_still.
Defined.

(** A computation that leaves the record of the current thread alone. *)
Lemma quiet_step {A : Type} (c : M A) :
  (forall k : kernel, current (snd (c k)) = current k) -> quiet_or_exits c.
Proof. intros Hc k. left. apply Hc. Qed.

Lemma quiet_or_exits_bind {A B : Type} (c : M A) (g : A -> M B) :
  quiet_or_exits c -> (forall a : A, quiet_or_exits (g a)) ->
  quiet_or_exits (c ≫= g).
Proof.
  intros Hc Hg k. specialize (Hc k).
  destruct (M_bind_cases c g k) as [(a & k1 & Ha & Hb)|(why & k1 & Ha & Hb)];
    rewrite Hb; rewrite Ha in Hc; simpl in Hc.
  - destruct Hc as [Hsame|[Hstop _]]; [|discriminate Hstop].
    destruct (Hg a k1) as [Hq|[Hstop Hexit]].
    + left. congruence.
    + right. split; [exact Hstop|]. now rewrite <- Hsame.
  - destruct Hc as [Hsame|[Hstop Hexit]]; [now left|right].
    injection Hstop as ->. split; [reflexivity|exact Hexit].
Qed.

Lemma quiet_or_exits_when {A : Type} (b : bool) (c : M A) :
  quiet_or_exits c -> quiet_or_exits (when b c).
Proof.
  intros Hc. unfold when. destruct b.
  - apply quiet_or_exits_bind; [exact Hc|]. intros _. now apply quiet_step.
  - now apply quiet_step.
Qed.

Lemma quiet_thread_exit {A : Type} : quiet_or_exits (thread_exit (A := A)).
Proof. now apply quiet_step. Qed.

Lemma quiet_deref_int (a : Z) : quiet_or_exits (deref_int a).
Proof.
  apply quiet_step. intros k. unfold deref_int.
  now destruct (load_bytes (user_memory k) a 4).
Qed.

Lemma quiet_or_exits_sys_exit (status : Z) : quiet_or_exits (sys_exit status).
Proof.
  intros k. destruct (pcb (current k)) as [p|] eqn:Hp.
  - right. rewrite (sys_exit_run status k p Hp). split; [reflexivity|].
    exists p, status. split; [exact Hp|reflexivity].
  - left. now rewrite (sys_exit_no_pcb status k Hp).
Qed.

Lemma quiet_or_exits_fail_invalid_access : quiet_or_exits fail_invalid_access.
Proof.
  unfold fail_invalid_access.
  apply quiet_or_exits_bind; [apply quiet_or_exits_sys_exit|].
  intros _. now apply quiet_step.
Qed.

Lemma quiet_sys_write (fd buffer size ret : Z) :
  quiet_or_exits (sys_write fd buffer size ret).
Proof.
  apply quiet_step. intros k. unfold sys_write, putbuf. run_monad.
  destruct (get_user (user_memory k) buffer =? -1); [reflexivity|].
  destruct (fd =? 1); [|reflexivity].
  now destruct (load_bytes (user_memory k) buffer (Z.to_nat size)).
Qed.

Ltac quiet_args :=
  repeat (apply quiet_or_exits_bind;
          [first [now apply quiet_step
                 |apply quiet_or_exits_when;
                  apply quiet_or_exits_fail_invalid_access]
          |let a := fresh "a" in
           intros a;
           match type of a with
           | prod _ _ => destruct a
           | _ => idtac
           end]).

Section ExitOnly.
Context `{Collaborators}.
Hypothesis Hexec : forall cmdline : Z, quiet_or_exits (process_execute cmdline).
Hypothesis Hwait : forall child : Z, quiet_or_exits (process_wait child).

Lemma quiet_case_SYS_EXIT (f : intr_frame) : quiet_or_exits (case_SYS_EXIT f).
Proof.
  unfold case_SYS_EXIT. quiet_args.
  apply quiet_or_exits_bind; [apply quiet_or_exits_sys_exit|]. intros _.
  apply quiet_or_exits_bind; [now apply quiet_step|]. intros _.
  now apply quiet_step.
Qed.

Lemma quiet_unhandled (f : intr_frame) (n : Z) : quiet_or_exits (unhandled f n).
Proof.
  unfold unhandled. apply quiet_or_exits_bind; [now apply quiet_step|].
  intros _. apply quiet_or_exits_bind; [apply quiet_or_exits_sys_exit|].
  intros _. now apply quiet_step.
Qed.

Lemma quiet_case_SYS_EXEC (f : intr_frame) : quiet_or_exits (case_SYS_EXEC f).
Proof.
  unfold case_SYS_EXEC, sys_exec. quiet_args.
  apply quiet_or_exits_bind; [|intros ?; now apply quiet_step].
  quiet_args.
  apply quiet_or_exits_bind; [apply Hexec|]. intros ?. now apply quiet_step.
Qed.

Lemma quiet_case_SYS_WAIT (f : intr_frame) : quiet_or_exits (case_SYS_WAIT f).
Proof.
  unfold case_SYS_WAIT, sys_wait. quiet_args.
  apply quiet_or_exits_bind; [apply Hwait|]. intros ?. now apply quiet_step.
Qed.

Lemma quiet_case_SYS_WRITE (f : intr_frame) : quiet_or_exits (case_SYS_WRITE f).
Proof.
  unfold case_SYS_WRITE. quiet_args.
  apply quiet_or_exits_bind; [apply quiet_sys_write|]. intros [ok return_code].
  apply quiet_or_exits_bind;
    [apply quiet_or_exits_when; apply quiet_thread_exit|].
  intros _. now apply quiet_step.
Qed.

(** X18: the PCB changes on the exit path only, and once. Whatever the
    frame and the state, either the handler leaves the record of the
    current thread as it found it, or it has ended the thread and the
    record is the old one with [exited] set, an exit status written and
    the semaphore raised by one; provided [process_execute] and
    [process_wait] behave so. In particular a trap that returns, powers
    off or panics has not touched the PCB, and no trap raises the
    semaphore twice. *)
Theorem handler_changes_pcb_on_exit_only (f : intr_frame) (k : kernel) :
  current (snd (syscall_handler f k)) = current k \/
  (fst (syscall_handler f k) = Stop ThreadExited /\
   exit_of (current k) (current (snd (syscall_handler f k)))).
Proof.
  revert k. change (quiet_or_exits (syscall_handler f)).
  unfold syscall_handler.
  apply quiet_or_exits_bind;
    [apply quiet_or_exits_when; apply quiet_thread_exit|]. intros _.
  apply quiet_or_exits_bind; [now apply quiet_step|]. intros ok.
  apply quiet_or_exits_bind.
  { apply quiet_or_exits_when. unfold sys_badmemory_access.
    apply quiet_or_exits_bind; [apply quiet_or_exits_sys_exit|].
    intros _. now apply quiet_step. }
  intros _. apply quiet_or_exits_bind; [apply quiet_deref_int|]. intros n.
  unfold switch_syscall.
  repeat match goal with
         | |- quiet_or_exits (if ?b then _ else _) => destruct b
         end;
    first [ apply quiet_case_SYS_EXIT | apply quiet_case_SYS_EXEC
          | apply quiet_case_SYS_WAIT | apply quiet_case_SYS_WRITE
          | apply quiet_unhandled | idtac ].
  apply quiet_or_exits_bind; [|intros _; apply quiet_case_SYS_EXIT].
  now apply quiet_step.
Qed.
End ExitOnly.

Lemma handler_changes_pcb_on_exit_only_witness :
  current (snd (trap mem_write_99 0xBFFFF000)) = current (proc mem_write_99) \/
  (fst (trap mem_write_99 0xBFFFF000) = Stop ThreadExited /\
   exit_of (current (proc mem_write_99))
     (current (snd (trap mem_write_99 0xBFFFF000)))).
Proof.
  apply (@handler_changes_pcb_on_exit_only idle).
  - intros cmdline. now apply quiet_step.
  - intros child. now apply quiet_step.
Defined.
